(** * tap-zendesk: bookmark handling of the stream classes

    A shallow embedding of [tap_zendesk/streams.py]: the stream classes and
    their registry, the bookmark accessors, the metadata derivation and the
    [sync] generators, with the bookmark state threaded explicitly.

    The libraries the module calls ([singer], [dateutil] through
    [singer.utils], and the [zenpy] client) are not part of the module.  The
    dictionary helpers of [singer] are written out below; the timestamp parser
    and the effect of [reversed] on a zenpy generator are kept abstract as
    section variables; the zenpy audit generator is a buffered page with an
    index, as the module uses it. *)

From stdpp Require Import gmap strings list fin_maps.
From Stdlib Require Import ZArith Lia Ascii.

Local Open Scope string_scope.
Local Open Scope Z_scope.

(** ** Python values held in the state and in record attributes *)

(** A bookmark value or a record attribute: [None] or a string. *)
Inductive value : Type :=
| VNone
| VStr (s : string).

#[global] Instance value_eq_dec : EqDecision value.
Proof. solve_decision. Defined.

(** The exceptions that can leave the functions modelled here. *)
Inductive exn : Type :=
| ParserTypeError      (* dateutil: the argument is not a string *)
| ParserValueError     (* dateutil: the string is not a timestamp *)
| IndexError           (* list index out of range *)
| MetadataError.       (* singer.metadata.write: the value is None *)

Inductive result (A : Type) : Type :=
| Ok (a : A)
| Err (e : exn).
Arguments Ok {A} a.
Arguments Err {A} e.

(** Python truthiness of a [value]: [None] and the empty string are false. *)
Definition truthy (v : value) : bool :=
  match v with
  | VNone => false
  | VStr s => negb (String.eqb s "")
  end.

(** ** The bookmark state

    A dictionary key is a string or [None] (a class that inherits
    [replication_key] from the base class has it at [None]).  The state is the mapping
    stream name -> bookmark field -> value that [singer.get_bookmark] and
    [singer.write_bookmark] read and write (singer keeps it under the
    top-level entry ["bookmarks"] of the state file). *)
Abbreviation pykey := (option string).
Abbreviation State := (gmap pykey (gmap pykey value)).

(** Modelled from the spec: [singer.get_bookmark(state, tap_stream_id, key)],
    of the singer library, reads [state[tap_stream_id][key]]; it is a chain of
    [dict.get] with default [None], so a missing entry and a stored [None]
    read the same. *)
Definition singer_get_bookmark (state : State) (tap_stream_id key : pykey) : value :=
  default VNone (default ∅ (state !! tap_stream_id) !! key).

(** Modelled from the spec: [singer.write_bookmark(state, tap_stream_id, key,
    val)], of the singer library, writes [state[tap_stream_id][key] = val] in
    the shared state, creating the stream's entry when absent. *)
Definition singer_write_bookmark (state : State) (tap_stream_id key : pykey)
    (val : value) : State :=
  <[tap_stream_id := <[key := val]> (default ∅ (state !! tap_stream_id))]> state.

(** ** The stream classes and their class attributes (lines 14-18, 50-193) *)

Definition KEY_PROPERTIES : list string := ["id"].

(** The concrete classes.  The base class [Stream] only supplies the defaults
    [name = None], [replication_method = None], [replication_key = None] and
    [key_properties = KEY_PROPERTIES]; they appear below where a class
    inherits them. *)
Inductive stream_class : Type :=
| Organizations
| Users
| Tickets
| TicketAudits
| Groups
| Macros
| Tags
| TicketFields
| TicketMetrics
| GroupMemberships.

#[global] Instance stream_class_eq_dec : EqDecision stream_class.
Proof. solve_decision. Defined.

Definition name (self : stream_class) : option string :=
  match self with
  | Organizations => Some "organizations"
  | Users => Some "users"
  | Tickets => Some "tickets"
  | TicketAudits => Some "ticket-audits"
  | Groups => Some "groups"
  | Macros => Some "macros"
  | Tags => Some "tags"
  | TicketFields => Some "ticket-fields"
  | TicketMetrics => Some "ticket-metrics"
  | GroupMemberships => Some "group-memberships"
  end.

Definition replication_method (self : stream_class) : option string :=
  match self with
  | Tags => Some "FULL_TABLE"
  | Organizations | Users | Tickets | TicketAudits | Groups | Macros
  | TicketFields | TicketMetrics | GroupMemberships => Some "INCREMENTAL"
  end.

Definition replication_key (self : stream_class) : option string :=
  match self with
  | Tags => None                       (* inherited from the base class *)
  | TicketAudits => Some "created_at"
  | Organizations | Users | Tickets | Groups | Macros
  | TicketFields | TicketMetrics | GroupMemberships => Some "updated_at"
  end.

Definition key_properties (self : stream_class) : list string :=
  match self with
  | Tags => []
  | _ => KEY_PROPERTIES                (* inherited from the base class *)
  end.

(** The registry (lines 205-216), in the order of the dictionary literal. *)
Definition STREAMS : list (string * stream_class) :=
  [ ("tickets", Tickets);
    ("groups", Groups);
    ("users", Users);
    ("organizations", Organizations);
    ("ticket-audits", TicketAudits);
    ("ticket-fields", TicketFields);
    ("group-memberships", GroupMemberships);
    ("macros", Macros);
    ("tags", Tags);
    ("ticket-metrics", TicketMetrics) ].

(** The four families of [sync] bodies. *)
Definition timestamp_filtered : list stream_class :=
  [Organizations; Users; Tickets; TicketMetrics].

Definition manual_filter : list stream_class :=
  [Groups; Macros; TicketFields; GroupMemberships].

(** ** Records and the remote client *)

(** A zenpy object, as far as the module looks at it. *)
Record zobject : Type := {
  obj_id : Z;
  updated_at : value;
  created_at : value
}.

(** One page of the audit feed: its records and the [before_cursor] token the
    response carries. *)
Record page : Type := {
  page_values : list zobject;
  page_before_cursor : value
}.

(** Modelled from the spec: the iterator [client.tickets.audits] returns, of
    the zenpy library, exposes [before_cursor] (the current pagination token)
    and a mutable [position] (element index), and moves on to the next page
    by itself as it is iterated.  Here: the buffered page [values], the index
    [position] of the next element, the attribute [before_cursor], and the
    pages it fetches when the buffer is used up. *)
Record audit_generator : Type := {
  values : list zobject;
  position : Z;
  before_cursor : value;
  next_pages : list page
}.

(** The client handle: the accessors the [sync] methods call. *)
Record Client : Type := {
  organizations_incremental : Z -> list zobject;
  users_incremental : Z -> list zobject;
  tickets_incremental : Z -> list zobject;
  tickets_metrics_incremental : Z -> list zobject;
  tickets_audits : value -> audit_generator;   (* [VNone]: no cursor argument *)
  groups : list zobject;
  macros : list zobject;
  ticket_fields : list zobject;
  group_memberships : list zobject;
  tags : list zobject
}.

(** ** The zenpy audit generator

    [values[position]] with Python's indexing: a negative index counts from
    the end, anything outside raises [IndexError]. *)
Definition py_index {A : Type} (l : list A) (i : Z) : option A :=
  let n := Z.of_nat (length l) in
  if (0 <=? i) && (i <? n) then l !! Z.to_nat i
  else if (- n <=? i) && (i <? 0) then l !! Z.to_nat (n + i)
  else None.

Inductive gen_result : Type :=
| GYield (x : zobject) (g : audit_generator)
| GStop (g : audit_generator)                  (* StopIteration *)
| GRaise (e : exn) (g : audit_generator).

(** Modelled from the spec: the generator's page change.  No further page
    ends the iteration; otherwise the response replaces the buffer and the
    attributes, and the index restarts. *)
Definition handle_pagination (g : audit_generator) : option audit_generator :=
  match next_pages g with
  | [] => None
  | p :: ps =>
      Some {| values := page_values p;
              position := 0;
              before_cursor := page_before_cursor p;
              next_pages := ps |}
  end.

(** Modelled from the spec: one [next()] on the generator.  It changes page
    when the index has passed the buffer, stops on an empty buffer, otherwise
    hands out [values[position]] and moves the index by one. *)
Definition gen_next (g : audit_generator) : gen_result :=
  let paged :=
    if Z.of_nat (length (values g)) <=? position g
    then handle_pagination g
    else Some g in
  match paged with
  | None => GStop g
  | Some g1 =>
      match values g1 with
      | [] => GStop g1
      | _ :: _ =>
          match py_index (values g1) (position g1) with
          | None => GRaise IndexError g1
          | Some x =>
              GYield x {| values := values g1;
                          position := position g1 + 1;
                          before_cursor := before_cursor g1;
                          next_pages := next_pages g1 |}
          end
      end
  end.

(** [audit_generator.position -= 1] *)
Definition rewind (g : audit_generator) : audit_generator :=
  {| values := values g;
     position := position g - 1;
     before_cursor := before_cursor g;
     next_pages := next_pages g |}.

(** The number of [next()] calls the generator can still answer with a record
    or a page change; it bounds the loops that drive it. *)
Definition gen_measure (g : audit_generator) : nat :=
  (Z.to_nat (Z.of_nat (length (values g)) - position g)
   + foldr (fun p n => S (length (page_values p)) + n) 0 (next_pages g))%nat.

(** ** Generator objects

    A [sync] with a [yield] in its body is a generator function: calling it
    builds a generator object and runs nothing; each [next()] resumes the body
    up to the next [yield].  A [frame] is the suspended body: its program
    point and the local variables still in use. *)
Inductive frame : Type :=
| Created                                        (* body not entered yet *)
| AtYield (rest : list zobject) (bookmark : Z)   (* at the [yield] of a loop over a client collection *)
| AtAuditYield (g : audit_generator)             (* at the [yield] of TicketAudits.sync *)
| Iterating (rest : list zobject).               (* a plain iterator over a collection *)

(** What one [next()] does: hand out a record and suspend, finish
    ([StopIteration]), or raise.  Each carries the state as the call left it;
    after the last two the generator is over and is not resumed again. *)
Inductive resumption : Type :=
| Yielded (x : zobject) (k : frame) (s : State)
| Returned (s : State)
| Raised (e : exn) (s : State).

Inductive ending : Type :=
| Exhausted
| Failed (e : exn).

(** The consumer's [for record in stream.sync(state)]: calls [next()] until
    the generator finishes; records each emitted record with the state as it
    is at that [yield].  [None]: the fuel ran out first. *)
Fixpoint consume (next : frame -> State -> resumption) (fuel : nat)
    (k : frame) (s : State) : option (list (zobject * State) * ending * State) :=
  match fuel with
  | O => None
  | S fuel' =>
      match next k s with
      | Yielded x k' s' =>
          match consume next fuel' k' s' with
          | Some (tr, e, sf) => Some ((x, s') :: tr, e, sf)
          | None => None
          end
      | Returned s' => Some ([], Exhausted, s')
      | Raised e s' => Some ([], Failed e, s')
      end
  end.

(** ** The methods of the stream classes *)

Section Streams.

(** [dateutil.parser.parse] on a string: the instant it denotes on the UTC
    time line, or no result when the string is not a timestamp. *)
Variable parse : string -> option Z.

(** What zenpy's [__reversed__] does to the audit generator.  It returns the
    generator itself, so the loop of [advance_cursor] and the name
    [audit_generator] refer to one object. *)
Variable reversed_gen : audit_generator -> audit_generator.

(** Modelled from the spec: [singer.utils.strptime_with_tz] parses its
    argument as a timezone-aware timestamp and fails when it is malformed;
    [None] is no string and fails in the parser too.  Two results compare as
    instants. *)
Definition strptime_with_tz (v : value) : result Z :=
  match v with
  | VNone => Err ParserTypeError
  | VStr s =>
      match parse s with
      | Some t => Ok t
      | None => Err ParserValueError
      end
  end.

(** Lines 23-24. *)
Definition get_bookmark (self : stream_class) (state : State) : result Z :=
  strptime_with_tz (singer_get_bookmark state (name self) (replication_key self)).

(** Lines 26-27. *)
Definition update_bookmark (self : stream_class) (state : State) (v : value) : State :=
  singer_write_bookmark state (name self) (replication_key self) v.

(** *** Timestamp-filtered streams (lines 55-60, 67-72, 79-84, 182-188)

    The four bodies differ in the class and the client accessor only. *)

(** The [for] loop, entered or resumed with [rest] left in the feed: the
    bookmark is set to the record's timestamp, then the record is yielded. *)
Definition timestamp_loop (self : stream_class) (bookmark : Z)
    (rest : list zobject) (state : State) : resumption :=
  match rest with
  | [] => Returned state
  | r :: rest' =>
      Yielded r (AtYield rest' bookmark) (update_bookmark self state (updated_at r))
  end.

(** [next()] on the generator: the first one reads the bookmark and asks the
    client for the feed; a later one resumes the loop.  (The last case is for
    frames of the other families, which this generator is never in.) *)
Definition timestamp_next (self : stream_class) (feed : Z -> list zobject)
    (k : frame) (state : State) : resumption :=
  match k with
  | Created =>
      match get_bookmark self state with
      | Err e => Raised e state
      | Ok bookmark => timestamp_loop self bookmark (feed bookmark) state
      end
  | AtYield rest bookmark => timestamp_loop self bookmark rest state
  | _ => Returned state
  end.

(** *** Manual-filter streams (lines 131-138, 145-152, 167-174, 195-202) *)

(** The [for] loop with its test: a record older than the bookmark is passed
    over, another one sets the bookmark and is yielded. *)
Fixpoint manual_loop (self : stream_class) (bookmark : Z)
    (rest : list zobject) (state : State) : resumption :=
  match rest with
  | [] => Returned state
  | r :: rest' =>
      match strptime_with_tz (updated_at r) with
      | Err e => Raised e state
      | Ok t =>
          if bookmark <=? t
          then Yielded r (AtYield rest' bookmark)
                       (update_bookmark self state (updated_at r))
          else manual_loop self bookmark rest' state
      end
  end.

Definition manual_next (self : stream_class) (collection : list zobject)
    (k : frame) (state : State) : resumption :=
  match k with
  | Created =>
      match get_bookmark self state with
      | Err e => Raised e state
      | Ok bookmark => manual_loop self bookmark collection state
      end
  | AtYield rest bookmark => manual_loop self bookmark rest state
  | _ => Returned state
  end.

(** *** Tags (lines 159-160): no generator, the client's collection itself *)

Definition iterator_next (k : frame) (state : State) : resumption :=
  match k with
  | Iterating (r :: rest) => Yielded r (Iterating rest) state
  | _ => Returned state
  end.

(** *** TicketAudits (lines 91-124) *)

(** Lines 91-96. *)
Definition update_cursor_bookmark (state : State) (g : audit_generator) : State :=
  let cursor_advanced :=
    negb (bool_decide (before_cursor g =
            singer_get_bookmark state (name TicketAudits) (Some "cursor_value"))) in
  if cursor_advanced
  then singer_write_bookmark state (name TicketAudits) (Some "cursor_value")
                             (before_cursor g)
  else state.

(** One pass through the loop of [advance_cursor] (lines 99-105). *)
Inductive pass : Type :=
| Continue (g : audit_generator) (s : State)
| Break (g : audit_generator) (s : State)
| LoopEnd (g : audit_generator) (s : State)      (* the iterator is used up *)
| Throw (e : exn) (g : audit_generator) (s : State).

Definition advance_cursor_pass (bookmark : Z) (g : audit_generator)
    (state : State) : pass :=
  match gen_next g with
  | GStop g' => LoopEnd g' state
  | GRaise e g' => Throw e g' state
  | GYield audit g' =>
      let state' := update_cursor_bookmark state g' in
      match strptime_with_tz (created_at audit) with
      | Err e => Throw e g' state'
      | Ok t =>
          if t <? bookmark
          then Continue g' state'
          else Break (rewind g') state'
      end
  end.

(** What [advance_cursor] leaves: the generator it returns, or the
    exception; both with the state. *)
Inductive advanced : Type :=
| AcReturn (g : audit_generator) (s : State)
| AcRaise (e : exn) (s : State).

Fixpoint advance_cursor_loop (fuel : nat) (bookmark : Z)
    (g : audit_generator) (state : State) : option advanced :=
  match fuel with
  | O => None
  | S fuel' =>
      match advance_cursor_pass bookmark g state with
      | Continue g' s' => advance_cursor_loop fuel' bookmark g' s'
      | Break g' s' => Some (AcReturn g' s')
      | LoopEnd g' s' => Some (AcReturn g' s')
      | Throw e _ s' => Some (AcRaise e s')
      end
  end.

(** Lines 98-107.  The loop runs on [reversed(audit_generator)]; the fuel
    [S (gen_measure _)] is never used up ([advance_cursor_loop_enough]). *)
Definition advance_cursor (audit_generator : audit_generator) (bookmark : Z)
    (state : State) : advanced :=
  let it := reversed_gen audit_generator in
  default (AcReturn it state)
          (advance_cursor_loop (S (gen_measure it)) bookmark it state).

(** The loop of [sync] (lines 121-124), entered or resumed. *)
Definition audits_loop (g : audit_generator) (state : State) : resumption :=
  match gen_next g with
  | GStop _ => Returned state
  | GRaise e _ => Raised e state
  | GYield audit g' =>
      let state1 := update_cursor_bookmark state g' in
      let state2 := update_bookmark TicketAudits state1 (created_at audit) in
      Yielded audit (AtAuditYield g') state2
  end.

(** Lines 112-116: the generator [sync] asks the client for. *)
Definition requested_audits (client : Client) (state : State) : audit_generator :=
  let cursor_bookmark :=
    singer_get_bookmark state (name TicketAudits) (Some "cursor_value") in
  if truthy cursor_bookmark
  then tickets_audits client cursor_bookmark
  else tickets_audits client VNone.

(** Lines 109-124. *)
Definition audits_next (client : Client) (k : frame) (state : State) : resumption :=
  match k with
  | Created =>
      match get_bookmark TicketAudits state with
      | Err e => Raised e state
      | Ok bookmark =>
          let audit_generator := requested_audits client state in
          match advance_cursor audit_generator bookmark state with
          | AcRaise e s' => Raised e s'
          | AcReturn g s' => audits_loop g s'
          end
      end
  | AtAuditYield g => audits_loop g state
  | _ => Returned state
  end.

(** *** [sync] and [next] by class *)

(** [self.sync(state)]: the object the call returns and the state after the
    call.  Every class but [Tags] has a generator function: the call runs
    none of the body.  [Tags.sync] calls the client and returns its
    collection. *)
Definition sync (self : stream_class) (client : Client) (state : State)
    : frame * State :=
  match self with
  | Tags => (Iterating (tags client), state)
  | _ => (Created, state)
  end.

(** [next()] on the object [self.sync(state)] returned. *)
Definition next (self : stream_class) (client : Client)
    : frame -> State -> resumption :=
  match self with
  | Organizations => timestamp_next Organizations (organizations_incremental client)
  | Users => timestamp_next Users (users_incremental client)
  | Tickets => timestamp_next Tickets (tickets_incremental client)
  | TicketMetrics => timestamp_next TicketMetrics (tickets_metrics_incremental client)
  | TicketAudits => audits_next client
  | Groups => manual_next Groups (groups client)
  | Macros => manual_next Macros (macros client)
  | TicketFields => manual_next TicketFields (ticket_fields client)
  | GroupMemberships => manual_next GroupMemberships (group_memberships client)
  | Tags => iterator_next
  end.

(** Consuming [self.sync(state)] to the end. *)
Definition run (self : stream_class) (client : Client) (fuel : nat) (state : State)
    : option (list (zobject * State) * ending * State) :=
  let '(k, s) := sync self client state in
  consume (next self client) fuel k s.

End Streams.

(** ** Metadata (lines 35-48)

    [singer.metadata] keeps a dictionary from breadcrumb (a tuple of strings)
    to a dictionary of annotations; [to_list] lists its items.  Python
    dictionaries keep insertion order, so both are association lists here. *)

Inductive mvalue : Type :=
| MStr (s : string)
| MList (l : list string).

Abbreviation breadcrumb := (list string).
Abbreviation annotations := (list (string * mvalue)).
Abbreviation compiled_metadata := (list (breadcrumb * annotations)).

Fixpoint dict_get {K V : Type} `{EqDecision K} (k : K) (d : list (K * V)) : option V :=
  match d with
  | [] => None
  | (k', v) :: d' => if decide (k = k') then Some v else dict_get k d'
  end.

(** [d[k] = v]: an existing key keeps its place, a new one goes last. *)
Fixpoint dict_set {K V : Type} `{EqDecision K} (k : K) (v : V) (d : list (K * V))
    : list (K * V) :=
  match d with
  | [] => [(k, v)]
  | (k', v') :: d' =>
      if decide (k = k') then (k, v) :: d' else (k', v') :: dict_set k v d'
  end.

Definition metadata_new : compiled_metadata := [].

(** Modelled from the spec: [metadata.write(compiled_metadata, breadcrumb, k,
    val)], of the singer library, stamps annotation [k] on the breadcrumb's
    entry; it refuses [None]. *)
Definition metadata_write (md : compiled_metadata) (bc : breadcrumb) (k : string)
    (val : option mvalue) : result compiled_metadata :=
  match val with
  | None => Err MetadataError
  | Some v => Ok (dict_set bc (dict_set k v (default [] (dict_get bc md))) md)
  end.

(** Modelled from the spec: [metadata.to_list], the ordered list of the
    entries. *)
Definition metadata_to_list (md : compiled_metadata) : list (breadcrumb * annotations) := md.

(** The loop of lines 42-46 over the field names of the schema. *)
Fixpoint write_inclusions (fields : list string) (mdata : compiled_metadata)
    : result compiled_metadata :=
  match fields with
  | [] => Ok mdata
  | field_name :: fields' =>
      let inclusion :=
        if bool_decide (field_name ∈ KEY_PROPERTIES) then "automatic" else "available" in
      match metadata_write mdata ["properties"; field_name] "inclusion"
                           (Some (MStr inclusion)) with
      | Err e => Err e
      | Ok mdata' => write_inclusions fields' mdata'
      end
  end.

(** Lines 35-48; [properties] is [schema['properties'].keys()] of the schema
    file [load_schema] reads. *)
Definition load_metadata (self : stream_class) (properties : list string)
    : result (list (breadcrumb * annotations)) :=
  match metadata_write metadata_new [] "table-key-properties"
                       (Some (MList (key_properties self))) with
  | Err e => Err e
  | Ok mdata1 =>
      match metadata_write mdata1 [] "forced-replication-method"
                           (MStr <$> replication_method self) with
      | Err e => Err e
      | Ok mdata2 =>
          match write_inclusions properties mdata2 with
          | Err e => Err e
          | Ok mdata3 => Ok (metadata_to_list mdata3)
          end
      end
  end.

(** The inclusion annotation a metadata list gives a field, if any. *)
Definition inclusion_of (md : list (breadcrumb * annotations)) (field_name : string)
    : option mvalue :=
  dict_get ["properties"; field_name] md ≫= dict_get "inclusion".

(** A table-level annotation of a metadata list, if any. *)
Definition table_annotation (md : list (breadcrumb * annotations)) (k : string)
    : option mvalue :=
  dict_get [] md ≫= dict_get k.

(** The annotation the loop of lines 42-46 gives a field. *)
Definition inclusion_written (field_name : string) : mvalue :=
  MStr (if bool_decide (field_name ∈ KEY_PROPERTIES) then "automatic" else "available").

(** ** A timestamp reader for the worked examples

    Timestamps of the form [YYYY-MM-DDTHH:MM:SSZ], read as seconds since
    1970-01-01T00:00:00Z.  It stands for the parser on the strings the
    examples use. *)

Definition digit (a : ascii) : option Z :=
  let n := Z.of_nat (nat_of_ascii a) in
  if (48 <=? n) && (n <=? 57) then Some (n - 48) else None.

Fixpoint number (acc : Z) (l : list ascii) : option Z :=
  match l with
  | [] => Some acc
  | a :: l' =>
      match digit a with
      | Some d => number (10 * acc + d) l'
      | None => None
      end
  end.

Definition is_char (c : string) (a : ascii) : bool :=
  String.eqb c (String.String a String.EmptyString).

Definition leap_year (y : Z) : bool :=
  ((y mod 4 =? 0) && negb (y mod 100 =? 0)) || (y mod 400 =? 0).

Definition days_in_month (y m : Z) : Z :=
  if m =? 2 then (if leap_year y then 29 else 28)
  else if (m =? 4) || (m =? 6) || (m =? 9) || (m =? 11) then 30
  else 31.

(** Days from 1970-01-01 to the given civil date. *)
Definition days_from_civil (y m d : Z) : Z :=
  let y' := if m <=? 2 then y - 1 else y in
  let era := y' / 400 in
  let yoe := y' - era * 400 in
  let mp := (m + 9) mod 12 in
  let doy := (153 * mp + 2) / 5 + d - 1 in
  let doe := yoe * 365 + yoe / 4 - yoe / 100 + doy in
  era * 146097 + doe - 719468.

Definition iso8601 (s : string) : option Z :=
  match String.list_ascii_of_string s with
  | [y1; y2; y3; y4; c1; m1; m2; c2; d1; d2; c3; h1; h2; c4; n1; n2; c5; s1; s2; c6] =>
      if is_char "-" c1 && is_char "-" c2 && is_char "T" c3
         && is_char ":" c4 && is_char ":" c5 && is_char "Z" c6
      then
        y ← number 0 [y1; y2; y3; y4];
        m ← number 0 [m1; m2];
        d ← number 0 [d1; d2];
        h ← number 0 [h1; h2];
        n ← number 0 [n1; n2];
        sec ← number 0 [s1; s2];
        if (1 <=? m) && (m <=? 12) && (1 <=? d) && (d <=? days_in_month y m)
           && (h <=? 23) && (n <=? 59) && (sec <=? 59)
        then Some (((days_from_civil y m d * 24 + h) * 60 + n) * 60 + sec)
        else None
      else None
  | _ => None
  end.

(** ** Reference traces used in the statements *)

(** The records of [l], each with the state right after the class's bookmark
    was set to its timestamp. *)
Fixpoint emitted (self : stream_class) (state : State) (l : list zobject)
    : list (zobject * State) :=
  match l with
  | [] => []
  | r :: l' =>
      let state' := update_bookmark self state (updated_at r) in
      (r, state') :: emitted self state' l'
  end.

(** The state after the records of [l] went through [emitted]. *)
Definition final_state (self : stream_class) (state : State) (l : list zobject) : State :=
  foldl (fun s r => update_bookmark self s (updated_at r)) state l.

(** The cursor token TicketAudits keeps in the state. *)
Definition stored_cursor (state : State) : value :=
  singer_get_bookmark state (name TicketAudits) (Some "cursor_value").

(** The stored bookmark of a class, unparsed. *)
Definition stored_bookmark (self : stream_class) (state : State) : value :=
  singer_get_bookmark state (name self) (replication_key self).

(** The client accessor each timestamp-filtered class calls with
    [start_time=bookmark]. *)
Definition incremental_feed (client : Client) (self : stream_class) : Z -> list zobject :=
  match self with
  | Organizations => organizations_incremental client
  | Users => users_incremental client
  | Tickets => tickets_incremental client
  | TicketMetrics => tickets_metrics_incremental client
  | _ => fun _ => []
  end.

(** The collection each manual-filter class asks the client for. *)
Definition collection_of (client : Client) (self : stream_class) : list zobject :=
  match self with
  | Groups => groups client
  | Macros => macros client
  | TicketFields => ticket_fields client
  | GroupMemberships => group_memberships client
  | _ => []
  end.

(** The test of lines 136, 150, 172 and 200 on a record whose timestamp
    parses: [strptime_with_tz(r.updated_at) >= bookmark]. *)
Definition fresh (parse : string -> option Z) (bookmark : Z) (r : zobject) : bool :=
  match strptime_with_tz parse (updated_at r) with
  | Ok t => bookmark <=? t
  | Err _ => false
  end.

(** A record has a timestamp when its [updated_at] parses. *)
Definition timestamped (parse : string -> option Z) (r : zobject) : Prop :=
  exists t, strptime_with_tz parse (updated_at r) = Ok t.

(** ** Data of the worked examples *)

Definition record_at (i : Z) (stamp : string) : zobject :=
  {| obj_id := i; updated_at := VStr stamp; created_at := VStr stamp |}.

Definition org1 : zobject := record_at 1 "2020-01-01T00:00:00Z".
Definition org2 : zobject := record_at 2 "2020-01-02T00:00:00Z".

(** Five audits one second apart: T-3, T-2, T-1, T, T+1 for
    T = 2020-01-01T00:00:03Z. *)
Definition audit1 : zobject := record_at 11 "2020-01-01T00:00:00Z".
Definition audit2 : zobject := record_at 12 "2020-01-01T00:00:01Z".
Definition audit3 : zobject := record_at 13 "2020-01-01T00:00:02Z".
Definition audit4 : zobject := record_at 14 "2020-01-01T00:00:03Z".
Definition audit5 : zobject := record_at 15 "2020-01-01T00:00:04Z".

(** A [reversed] that turns the buffered page around and leaves the rest. *)
Definition reverse_buffer (g : audit_generator) : audit_generator :=
  {| values := rev (values g);
     position := position g;
     before_cursor := before_cursor g;
     next_pages := next_pages g |}.

Definition demo_audits (cursor : value) : audit_generator :=
  {| values := [audit5; audit4; audit3; audit2; audit1];
     position := 0;
     before_cursor := VStr "cursor-1";
     next_pages := [] |}.

Definition demo_client : Client :=
  {| organizations_incremental := fun _ => [org1; org2];
     users_incremental := fun _ => [];
     tickets_incremental := fun _ => [];
     tickets_metrics_incremental := fun _ => [];
     tickets_audits := demo_audits;
     groups := [org2; org1; org2];
     macros := [];
     ticket_fields := [];
     group_memberships := [];
     tags := [org1; org2] |}.

(** A state whose only entry is one class's bookmark. *)
Definition state_with (self : stream_class) (v : value) : State :=
  update_bookmark self ∅ v.

(** ** Consumers and reference functions for the further properties *)

(** A consumer that takes at most [n] records and then stops calling
    [next()]: the records it got and the state it is left with. *)
Fixpoint consume_upto (next : frame -> State -> resumption) (n : nat)
    (k : frame) (s : State) : list zobject * State :=
  match n with
  | O => ([], s)
  | S n' =>
      match next k s with
      | Yielded x k' s' =>
          let '(xs, sf) := consume_upto next n' k' s' in (x :: xs, sf)
      | Returned s' => ([], s')
      | Raised _ s' => ([], s')
      end
  end.

(** The records of a collection before the first one whose [updated_at] does
    not parse. *)
Fixpoint readable (parse : string -> option Z) (l : list zobject) : list zobject :=
  match l with
  | [] => []
  | r :: l' =>
      match strptime_with_tz parse (updated_at r) with
      | Ok _ => r :: readable parse l'
      | Err _ => []
      end
  end.

(** How a walk over the collection that parses every [updated_at] ends. *)
Fixpoint walk_ending (parse : string -> option Z) (l : list zobject) : ending :=
  match l with
  | [] => Exhausted
  | r :: l' =>
      match strptime_with_tz parse (updated_at r) with
      | Ok _ => walk_ending parse l'
      | Err e => Failed e
      end
  end.

(** A generator as [sync] holds it after some [next()] calls on one page:
    the buffer [l], the index [i], the token [bc] and the pages to come. *)
Definition buffered (l : list zobject) (bc : value) (nps : list page) (i : Z)
    : audit_generator :=
  {| values := l; position := i; before_cursor := bc; next_pages := nps |}.

(** Two states agree on every stream entry but the one of [id0]. *)
Definition same_elsewhere (id0 : pykey) (s s' : State) : Prop :=
  forall id, id ≠ id0 -> s' !! id = s !! id.

(** The state a [next()] leaves. *)
Definition resumption_state (r : resumption) : State :=
  match r with
  | Yielded _ _ s => s
  | Returned s => s
  | Raised _ s => s
  end.

(** A record without a timestamp, and a client that hands it out. *)
Definition undated : zobject :=
  {| obj_id := 3; updated_at := VNone; created_at := VNone |}.

Definition faulty_client : Client :=
  {| organizations_incremental := fun _ => [];
     users_incremental := fun _ => [];
     tickets_incremental := fun _ => [];
     tickets_metrics_incremental := fun _ => [org1; undated];
     tickets_audits := demo_audits;
     groups := [];
     macros := [org2; undated; org2];
     ticket_fields := [];
     group_memberships := [];
     tags := [] |}.


(** * Properties *)

(** ** The bookmark dictionary *)

Lemma get_write_same (state : State) (id key : pykey) (v : value) :
  singer_get_bookmark (singer_write_bookmark state id key v) id key = v.
Proof.
  unfold singer_get_bookmark, singer_write_bookmark.
  rewrite lookup_insert_eq. simpl. by rewrite lookup_insert_eq.
Qed.

Lemma get_write_other_key (state : State) (id key key' : pykey) (v : value) :
  key ≠ key' ->
  singer_get_bookmark (singer_write_bookmark state id key v) id key'
  = singer_get_bookmark state id key'.
Proof.
  intros Hne. unfold singer_get_bookmark, singer_write_bookmark.
  rewrite lookup_insert_eq. simpl. by rewrite lookup_insert_ne.
Qed.

Lemma get_write_other_stream (state : State) (id id' key key' : pykey) (v : value) :
  id ≠ id' ->
  singer_get_bookmark (singer_write_bookmark state id key v) id' key'
  = singer_get_bookmark state id' key'.
Proof.
  intros Hne. unfold singer_get_bookmark, singer_write_bookmark.
  by rewrite lookup_insert_ne.
Qed.

Lemma stored_update_bookmark (self : stream_class) (state : State) (v : value) :
  stored_bookmark self (update_bookmark self state v) = v.
Proof. apply get_write_same. Qed.

(** ** Reference traces *)

Lemma emitted_records (self : stream_class) (l : list zobject) (state : State) :
  map fst (emitted self state l) = l.
Proof.
  revert state. induction l as [|r l IH]; intros state; simpl; [done|].
  by rewrite IH.
Qed.

Lemma emitted_snapshot (self : stream_class) (l : list zobject) (state : State)
    (r : zobject) (s' : State) :
  In (r, s') (emitted self state l) -> stored_bookmark self s' = updated_at r.
Proof.
  revert state. induction l as [|r0 l IH]; intros state; simpl; [tauto|].
  intros [Heq | Hin].
  - inversion Heq; subst. apply stored_update_bookmark.
  - eapply IH, Hin.
Qed.

Lemma emitted_complete (self : stream_class) (l : list zobject) (state : State)
    (r : zobject) :
  In r l -> exists s', In (r, s') (emitted self state l).
Proof.
  revert state. induction l as [|r0 l IH]; intros state; simpl; [tauto|].
  intros [-> | Hin].
  - eexists. left. reflexivity.
  - destruct (IH (update_bookmark self state (updated_at r0)) Hin) as [s' Hs'].
    exists s'. by right.
Qed.

Lemma last_nonempty {A : Type} (x : A) (l : list A) (d d' : A) :
  List.last (x :: l) d = List.last (x :: l) d'.
Proof.
  revert x. induction l as [|y l IH]; intros x; [done|].
  change (List.last (y :: l) d = List.last (y :: l) d'). apply IH.
Qed.

Lemma final_state_last (self : stream_class) (l : list zobject) (state : State) :
  stored_bookmark self (final_state self state l)
  = List.last (map updated_at l) (stored_bookmark self state).
Proof.
  unfold final_state. revert state.
  induction l as [|r l IH]; intros state; [done|].
  simpl foldl. rewrite IH, stored_update_bookmark.
  destruct l as [|r' l]; [done|].
  change (map updated_at (r :: r' :: l))
    with (updated_at r :: map updated_at (r' :: l)).
  change (List.last (updated_at r :: map updated_at (r' :: l)) (stored_bookmark self state))
    with (List.last (map updated_at (r' :: l)) (stored_bookmark self state)).
  apply last_nonempty.
Qed.

Section Consumption.

Variable parse : string -> option Z.
Variable reversed_gen : audit_generator -> audit_generator.

(** *** Timestamp-filtered streams *)

Lemma consume_timestamp (self : stream_class) (feed : Z -> list zobject)
    (b : Z) (rest : list zobject) :
  forall (s : State) (fuel : nat),
    (length rest < fuel)%nat ->
    consume (timestamp_next parse self feed) fuel (AtYield rest b) s
    = Some (emitted self s rest, Exhausted, final_state self s rest).
Proof.
  induction rest as [|r rest IH]; intros s fuel Hfuel.
  - destruct fuel; [lia | reflexivity].
  - destruct fuel as [|fuel]; [simpl in Hfuel; lia|].
    simpl in Hfuel. simpl. rewrite IH by lia. reflexivity.
Qed.

Lemma consume_timestamp_created (self : stream_class) (feed : Z -> list zobject)
    (b : Z) (s : State) (fuel : nat) :
  get_bookmark parse self s = Ok b ->
  consume (timestamp_next parse self feed) fuel Created s
  = consume (timestamp_next parse self feed) fuel (AtYield (feed b) b) s.
Proof.
  intros Hb. destruct fuel; [reflexivity|]. simpl. rewrite Hb. reflexivity.
Qed.

Lemma run_timestamp (self : stream_class) (client : Client) (fuel : nat) (s : State) :
  In self timestamp_filtered ->
  run parse reversed_gen self client fuel s
  = consume (timestamp_next parse self (incremental_feed client self)) fuel Created s.
Proof.
  simpl. intros [<- | [<- | [<- | [<- | []]]]]; reflexivity.
Qed.

(** C1. For each of Organizations, Users, Tickets and TicketMetrics: when
    the stored bookmark parses and the client's feed consists of records
    whose timestamps are at or after it, consuming [sync] to the end emits
    every record of the feed in order, leaves the stored bookmark at the
    last record's timestamp (at each [yield] it is the timestamp of the
    record being emitted), and every emitted record's timestamp is at or
    after the bookmark read at the start.  The order of the timestamps
    plays no part. *)
Theorem timestamp_sync_bookmark (self : stream_class) (client : Client)
    (state : State) (bookmark : Z) (fuel : nat) :
  In self timestamp_filtered ->
  get_bookmark parse self state = Ok bookmark ->
  Forall (fun r => exists t, strptime_with_tz parse (updated_at r) = Ok t
                             /\ bookmark <= t)
         (incremental_feed client self bookmark) ->
  (length (incremental_feed client self bookmark) < fuel)%nat ->
  exists tr sf,
    run parse reversed_gen self client fuel state = Some (tr, Exhausted, sf)
    /\ map fst tr = incremental_feed client self bookmark
    /\ stored_bookmark self sf
       = List.last (map updated_at (incremental_feed client self bookmark))
                   (stored_bookmark self state)
    /\ forall r s', In (r, s') tr ->
         stored_bookmark self s' = updated_at r
         /\ exists t, strptime_with_tz parse (updated_at r) = Ok t /\ bookmark <= t.
Proof.
  intros Hself Hb Hfeed Hfuel.
  exists (emitted self state (incremental_feed client self bookmark)),
         (final_state self state (incremental_feed client self bookmark)).
  split; [|split; [|split]].
  - rewrite run_timestamp by exact Hself.
    rewrite (consume_timestamp_created _ _ bookmark) by exact Hb.
    apply consume_timestamp, Hfuel.
  - apply emitted_records.
  - apply final_state_last.
  - intros r s' Hin. split.
    + eapply emitted_snapshot, Hin.
    + rewrite List.Forall_forall in Hfeed. apply Hfeed.
      rewrite <- (emitted_records self _ state).
      apply (List.in_map fst) in Hin. exact Hin.
Qed.

(** *** Manual-filter streams *)

Lemma fresh_spec (b : Z) (r : zobject) (t : Z) :
  strptime_with_tz parse (updated_at r) = Ok t ->
  fresh parse b r = (b <=? t).
Proof. intros H. unfold fresh. by rewrite H. Qed.

(** A record older than the bookmark goes by without any effect. *)
Lemma manual_loop_stale (self : stream_class) (b : Z) (r : zobject)
    (rest : list zobject) (s : State) (t : Z) :
  strptime_with_tz parse (updated_at r) = Ok t ->
  t < b ->
  manual_loop parse self b (r :: rest) s = manual_loop parse self b rest s.
Proof.
  intros Ht Hlt. simpl. rewrite Ht.
  destruct (Z.leb_spec b t); [lia | reflexivity].
Qed.

Lemma manual_loop_fresh (self : stream_class) (b : Z) (r : zobject)
    (rest : list zobject) (s : State) (t : Z) :
  strptime_with_tz parse (updated_at r) = Ok t ->
  b <= t ->
  manual_loop parse self b (r :: rest) s
  = Yielded r (AtYield rest b) (update_bookmark self s (updated_at r)).
Proof.
  intros Ht Hle. simpl. rewrite Ht.
  destruct (Z.leb_spec b t); [reflexivity | lia].
Qed.

Lemma consume_manual (self : stream_class) (coll : list zobject)
    (b : Z) (rest : list zobject) :
  Forall (timestamped parse) rest ->
  forall (s : State) (fuel : nat),
    (length rest < fuel)%nat ->
    consume (manual_next parse self coll) fuel (AtYield rest b) s
    = Some (emitted self s (List.filter (fresh parse b) rest), Exhausted,
            final_state self s (List.filter (fresh parse b) rest)).
Proof.
  induction 1 as [|r rest [t Ht] _ IH]; intros s fuel Hfuel.
  - destruct fuel; [lia | reflexivity].
  - destruct fuel as [|fuel]; [simpl in Hfuel; lia|].
    simpl in Hfuel. cbn [List.filter]. rewrite (fresh_spec b r t Ht).
    destruct (Z.leb_spec b t) as [Hle | Hlt].
    + cbn [consume manual_next].
      rewrite (manual_loop_fresh self b r rest s t Ht Hle).
      rewrite IH by lia. reflexivity.
    + specialize (IH s (S fuel) ltac:(lia)).
      cbn [consume manual_next] in IH |- *.
      rewrite (manual_loop_stale self b r rest s t Ht Hlt). exact IH.
Qed.

Lemma consume_manual_created (self : stream_class) (coll : list zobject)
    (b : Z) (s : State) (fuel : nat) :
  get_bookmark parse self s = Ok b ->
  consume (manual_next parse self coll) fuel Created s
  = consume (manual_next parse self coll) fuel (AtYield coll b) s.
Proof.
  intros Hb. destruct fuel; [reflexivity|]. simpl. rewrite Hb. reflexivity.
Qed.

Lemma run_manual (self : stream_class) (client : Client) (fuel : nat) (s : State) :
  In self manual_filter ->
  run parse reversed_gen self client fuel s
  = consume (manual_next parse self (collection_of client self)) fuel Created s.
Proof.
  simpl. intros [<- | [<- | [<- | [<- | []]]]]; reflexivity.
Qed.

(** C2. For each of Groups, Macros, TicketFields and GroupMemberships, with
    a stored bookmark that parses and a collection of records that all
    carry a timestamp: consuming [sync] to the end never emits a record
    older than the starting bookmark, and such a record leaves the state as
    it was (the run is the one of the collection without them); a record at
    or after the starting bookmark is emitted, and at its [yield] the
    stored bookmark is that record's timestamp. *)
Theorem manual_sync_filter (self : stream_class) (client : Client)
    (state : State) (bookmark : Z) (fuel : nat) :
  In self manual_filter ->
  get_bookmark parse self state = Ok bookmark ->
  Forall (timestamped parse) (collection_of client self) ->
  (length (collection_of client self) < fuel)%nat ->
  exists tr sf,
    run parse reversed_gen self client fuel state = Some (tr, Exhausted, sf)
    /\ (forall r t, In r (collection_of client self) ->
          strptime_with_tz parse (updated_at r) = Ok t -> t < bookmark ->
          ~ In r (map fst tr)
          /\ forall rest s, manual_loop parse self bookmark (r :: rest) s
                            = manual_loop parse self bookmark rest s)
    /\ (forall r t, In r (collection_of client self) ->
          strptime_with_tz parse (updated_at r) = Ok t -> bookmark <= t ->
          exists s', In (r, s') tr
                     /\ stored_bookmark self s' = updated_at r
                     /\ exists t', get_bookmark parse self s' = Ok t' /\ t <= t')
    /\ tr = emitted self state
              (List.filter (fresh parse bookmark) (collection_of client self))
    /\ sf = final_state self state
              (List.filter (fresh parse bookmark) (collection_of client self)).
Proof.
  intros Hself Hb Hcoll Hfuel.
  set (coll := collection_of client self) in *.
  exists (emitted self state (List.filter (fresh parse bookmark) coll)),
         (final_state self state (List.filter (fresh parse bookmark) coll)).
  split; [|split; [|split; [|split]]]; try reflexivity.
  - rewrite run_manual by exact Hself. fold coll.
    rewrite (consume_manual_created _ _ bookmark) by exact Hb.
    apply consume_manual; assumption.
  - intros r t Hin Ht Hlt. split.
    + rewrite emitted_records. intros Hf.
      apply List.filter_In in Hf as [_ Hf].
      rewrite (fresh_spec bookmark r t Ht) in Hf.
      apply Z.leb_le in Hf. lia.
    + intros rest s. eapply manual_loop_stale; eassumption.
  - intros r t Hin Ht Hle.
    assert (Hf : In r (List.filter (fresh parse bookmark) coll)).
    { apply List.filter_In. split; [exact Hin|].
      rewrite (fresh_spec bookmark r t Ht). apply Z.leb_le, Hle. }
    destruct (emitted_complete self _ state r Hf) as [s' Hs'].
    exists s'. split; [exact Hs'|].
    pose proof (emitted_snapshot self _ state r s' Hs') as Hsnap.
    split; [exact Hsnap|].
    exists t. split; [|lia].
    unfold get_bookmark. fold (stored_bookmark self s').
    rewrite Hsnap. exact Ht.
Qed.

End Consumption.

Lemma timestamp_sync_bookmark_witness :
  exists tr sf,
    run iso8601 reverse_buffer Organizations demo_client 3
        (state_with Organizations (VStr "2020-01-01T00:00:00Z"))
    = Some (tr, Exhausted, sf)
    /\ map fst tr = [org1; org2]
    /\ stored_bookmark Organizations sf = VStr "2020-01-02T00:00:00Z"
    /\ forall r s', In (r, s') tr ->
         stored_bookmark Organizations s' = updated_at r
         /\ exists t, strptime_with_tz iso8601 (updated_at r) = Ok t /\ 1577836800 <= t.
Proof.
  apply (timestamp_sync_bookmark iso8601 reverse_buffer Organizations demo_client
           (state_with Organizations (VStr "2020-01-01T00:00:00Z")) 1577836800 3).
  - simpl. tauto.
  - vm_compute. reflexivity.
  - repeat constructor; eexists; (split; [vm_compute; reflexivity | lia]).
  - simpl. lia.
Defined.

Lemma manual_sync_filter_witness :
  exists tr sf,
    run iso8601 reverse_buffer Groups demo_client 4
        (state_with Groups (VStr "2020-01-02T00:00:00Z"))
    = Some (tr, Exhausted, sf)
    /\ (forall r t, In r [org2; org1; org2] ->
          strptime_with_tz iso8601 (updated_at r) = Ok t -> t < 1577923200 ->
          ~ In r (map fst tr)
          /\ forall rest s, manual_loop iso8601 Groups 1577923200 (r :: rest) s
                            = manual_loop iso8601 Groups 1577923200 rest s)
    /\ (forall r t, In r [org2; org1; org2] ->
          strptime_with_tz iso8601 (updated_at r) = Ok t -> 1577923200 <= t ->
          exists s', In (r, s') tr
                     /\ stored_bookmark Groups s' = updated_at r
                     /\ exists t', get_bookmark iso8601 Groups s' = Ok t' /\ t <= t')
    /\ tr = emitted Groups (state_with Groups (VStr "2020-01-02T00:00:00Z")) [org2; org2]
    /\ sf = final_state Groups (state_with Groups (VStr "2020-01-02T00:00:00Z")) [org2; org2].
Proof.
  apply (manual_sync_filter iso8601 reverse_buffer Groups demo_client
           (state_with Groups (VStr "2020-01-02T00:00:00Z")) 1577923200 4).
  - simpl. tauto.
  - vm_compute. reflexivity.
  - repeat constructor; eexists; vm_compute; reflexivity.
  - simpl. lia.
Defined.

(** ** The audit generator *)

Lemma gen_next_measure (g g' : audit_generator) (x : zobject) :
  gen_next g = GYield x g' -> (gen_measure g' < gen_measure g)%nat.
Proof.
  unfold gen_next, gen_measure.
  destruct (Z.leb_spec (Z.of_nat (length (values g))) (position g)) as [Hge | Hlt].
  - unfold handle_pagination. destruct (next_pages g) as [|p ps]; [discriminate|].
    cbn [values position before_cursor next_pages].
    destruct (page_values p) as [|x0 l] eqn:Hp; [discriminate|].
    cbn. intros [= _ <-]. cbn. rewrite Hp. cbn [length]. lia.
  - destruct (values g) as [|x0 l] eqn:Hv; [discriminate|].
    destruct (py_index (x0 :: l) (position g)); [|discriminate].
    intros [= _ <-]. cbn [values position before_cursor next_pages].
    assert (0 < Z.of_nat (length (x0 :: l)) - position g) by lia. lia.
Qed.

(** A record inside the buffer is handed out and the index moves by one. *)
Lemma gen_next_buffered (g : audit_generator) (x : zobject) :
  0 <= position g < Z.of_nat (length (values g)) ->
  values g !! Z.to_nat (position g) = Some x ->
  gen_next g = GYield x {| values := values g;
                           position := position g + 1;
                           before_cursor := before_cursor g;
                           next_pages := next_pages g |}.
Proof.
  intros [H0 Hlt] Hx. unfold gen_next.
  destruct (Z.leb_spec (Z.of_nat (length (values g))) (position g)); [lia|].
  destruct (values g) as [|x0 l] eqn:Hv; [simpl in Hlt; lia|].
  unfold py_index.
  destruct (Z.leb_spec 0 (position g)); [|lia].
  destruct (Z.ltb_spec (position g) (Z.of_nat (length (x0 :: l)))); [|lia].
  cbn [andb]. rewrite Hx. reflexivity.
Qed.

(** *** The cursor bookmark *)

Lemma update_cursor_bookmark_stored (state : State) (g : audit_generator) :
  stored_cursor (update_cursor_bookmark state g) = before_cursor g.
Proof.
  unfold update_cursor_bookmark, stored_cursor.
  case_bool_decide as Heq; cbn [negb].
  - symmetry. exact Heq.
  - apply get_write_same.
Qed.

Lemma update_cursor_bookmark_same (state : State) (g : audit_generator) :
  before_cursor g = stored_cursor state ->
  update_cursor_bookmark state g = state.
Proof.
  intros Heq. unfold update_cursor_bookmark.
  fold (stored_cursor state). by rewrite bool_decide_eq_true_2.
Qed.



Lemma update_cursor_bookmark_again (state : State) (g g' : audit_generator) :
  before_cursor g' = before_cursor g ->
  update_cursor_bookmark (update_cursor_bookmark state g) g'
  = update_cursor_bookmark state g.
Proof.
  intros Heq. apply update_cursor_bookmark_same.
  rewrite update_cursor_bookmark_stored. exact Heq.
Qed.

Section Audits.

Variable parse : string -> option Z.
Variable reversed_gen : audit_generator -> audit_generator.

(** *** One pass of [advance_cursor] *)

Lemma pass_older (b : Z) (g g' : audit_generator) (s : State)
    (audit : zobject) (t : Z) :
  gen_next g = GYield audit g' ->
  strptime_with_tz parse (created_at audit) = Ok t ->
  t < b ->
  advance_cursor_pass parse b g s = Continue g' (update_cursor_bookmark s g').
Proof.
  intros Hn Ht Hlt. unfold advance_cursor_pass. rewrite Hn, Ht.
  destruct (Z.ltb_spec t b); [reflexivity | lia].
Qed.

Lemma pass_reached (b : Z) (g g' : audit_generator) (s : State)
    (audit : zobject) (t : Z) :
  gen_next g = GYield audit g' ->
  strptime_with_tz parse (created_at audit) = Ok t ->
  b <= t ->
  advance_cursor_pass parse b g s = Break (rewind g') (update_cursor_bookmark s g').
Proof.
  intros Hn Ht Hle. unfold advance_cursor_pass. rewrite Hn, Ht.
  destruct (Z.ltb_spec t b); [lia | reflexivity].
Qed.

Lemma pass_continue_measure (b : Z) (g g' : audit_generator) (s s' : State) :
  advance_cursor_pass parse b g s = Continue g' s' ->
  (gen_measure g' < gen_measure g)%nat.
Proof.
  unfold advance_cursor_pass.
  destruct (gen_next g) as [audit g1 | g1 | e g1] eqn:Hn; try discriminate.
  destruct (strptime_with_tz parse (created_at audit)); [|discriminate].
  destruct (_ <? _); [|discriminate].
  intros [= <- _]. eapply gen_next_measure, Hn.
Qed.

(** *** The loop of [advance_cursor] ends within its fuel *)

Lemma advance_cursor_loop_enough (b : Z) (fuel : nat) :
  forall (g : audit_generator) (s : State),
    (gen_measure g < fuel)%nat ->
    is_Some (advance_cursor_loop parse fuel b g s).
Proof.
  induction fuel as [|fuel IH]; intros g s Hfuel; [lia|].
  cbn [advance_cursor_loop].
  destruct (advance_cursor_pass parse b g s) as [g' s' | | | ] eqn:Hp; try by eexists.
  apply IH. apply pass_continue_measure in Hp. lia.
Qed.

Lemma advance_cursor_loop_more (b : Z) (fuel : nat) :
  forall (fuel' : nat) (g : audit_generator) (s : State) (r : advanced),
    advance_cursor_loop parse fuel b g s = Some r ->
    (fuel <= fuel')%nat ->
    advance_cursor_loop parse fuel' b g s = Some r.
Proof.
  induction fuel as [|fuel IH]; intros fuel' g s r Hr Hle; [discriminate|].
  destruct fuel' as [|fuel']; [lia|].
  cbn [advance_cursor_loop] in Hr |- *.
  destruct (advance_cursor_pass parse b g s); try exact Hr.
  eapply IH; [exact Hr | lia].
Qed.

(** Any fuel that lets the loop finish gives the result of [advance_cursor]. *)
Lemma advance_cursor_of_loop (fuel : nat) (b : Z) (g : audit_generator)
    (s : State) (r : advanced) :
  advance_cursor_loop parse fuel b (reversed_gen g) s = Some r ->
  advance_cursor parse reversed_gen g b s = r.
Proof.
  intros Hr. unfold advance_cursor.
  destruct (advance_cursor_loop_enough b (S (gen_measure (reversed_gen g)))
              (reversed_gen g) s ltac:(lia)) as [r' Hr'].
  rewrite Hr'. cbn [default].
  destruct (Nat.le_ge_cases fuel (S (gen_measure (reversed_gen g)))) as [Hle | Hge].
  - pose proof (advance_cursor_loop_more b _ _ _ _ _ Hr Hle) as H.
    rewrite Hr' in H. by injection H.
  - pose proof (advance_cursor_loop_more b _ _ _ _ _ Hr' Hge) as H.
    rewrite Hr in H. by injection H.
Qed.

(** *** Where [advance_cursor] leaves the generator *)

(** C3. The buffered page, walked in reverse, holds audits created at T-3,
    T-2, T-1, T and T+1, and the stored [created_at] bookmark is T-1.  Then
    [advance_cursor] consumes three audits and returns the generator with
    its index moved back by one slot, from 3 to 2: the index is on the audit
    created at T-1, and the first record the emission loop of [sync] hands
    out is that audit. *)
Theorem advance_cursor_repositions (T : Z) (a1 a2 a3 a4 a5 : zobject)
    (client : Client) (state : State) :
  values (reversed_gen (requested_audits client state)) = [a1; a2; a3; a4; a5] ->
  position (reversed_gen (requested_audits client state)) = 0 ->
  strptime_with_tz parse (created_at a1) = Ok (T - 3) ->
  strptime_with_tz parse (created_at a2) = Ok (T - 2) ->
  strptime_with_tz parse (created_at a3) = Ok (T - 1) ->
  strptime_with_tz parse (created_at a4) = Ok T ->
  strptime_with_tz parse (created_at a5) = Ok (T + 1) ->
  get_bookmark parse TicketAudits state = Ok (T - 1) ->
  exists (g3 : audit_generator) (s' : State),
    values g3 = [a1; a2; a3; a4; a5]
    /\ position g3 = 3
    /\ advance_cursor parse reversed_gen (requested_audits client state) (T - 1) state
       = AcReturn (rewind g3) s'
    /\ position (rewind g3) = 2
    /\ py_index (values (rewind g3)) (position (rewind g3)) = Some a3
    /\ gen_next (rewind g3) = GYield a3 g3
    /\ next parse reversed_gen TicketAudits client Created state
       = Yielded a3 (AtAuditYield g3) (update_bookmark TicketAudits s' (created_at a3)).
Proof.
  intros Hvals Hpos H1 H2 H3 H4 H5 Hb.
  destruct (reversed_gen (requested_audits client state))
    as [vals pos bc nps] eqn:Hit.
  cbn in Hvals, Hpos. subst vals pos.
  set (l := [a1; a2; a3; a4; a5]) in *.
  set (at_ := fun i => {| values := l; position := i;
                          before_cursor := bc; next_pages := nps |}).
  assert (Hnext : forall i x, 0 <= i < 5 -> l !! Z.to_nat i = Some x ->
                    gen_next (at_ i) = GYield x (at_ (i + 1))).
  { intros i x Hi Hx. apply (gen_next_buffered (at_ i) x); [exact Hi | exact Hx]. }
  assert (Hadv : advance_cursor parse reversed_gen (requested_audits client state)
                   (T - 1) state
                 = AcReturn (rewind (at_ 3)) (update_cursor_bookmark state (at_ 1))).
  { apply (advance_cursor_of_loop 3). rewrite Hit.
    change {| values := l; position := 0; before_cursor := bc; next_pages := nps |}
      with (at_ 0).
    cbn [advance_cursor_loop].
    rewrite (pass_older (T - 1) (at_ 0) (at_ 1) state a1 (T - 3));
      [| apply (Hnext 0); [lia | reflexivity] | exact H1 | lia].
    rewrite (pass_older (T - 1) (at_ 1) (at_ 2) _ a2 (T - 2));
      [| apply (Hnext 1); [lia | reflexivity] | exact H2 | lia].
    rewrite (pass_reached (T - 1) (at_ 2) (at_ 3) _ a3 (T - 1));
      [| apply (Hnext 2); [lia | reflexivity] | exact H3 | lia].
    rewrite !update_cursor_bookmark_again by reflexivity. reflexivity. }
  exists (at_ 3), (update_cursor_bookmark state (at_ 1)).
  split; [reflexivity|]. split; [reflexivity|]. split; [exact Hadv|].
  split; [reflexivity|]. split; [reflexivity|].
  split; [apply (Hnext 2); [lia | reflexivity]|].
  cbn [next audits_next]. rewrite Hb. cbn zeta. rewrite Hadv.
  unfold audits_loop.
  change (rewind (at_ 3)) with (at_ 2).
  rewrite (Hnext 2 a3) by (first [lia | reflexivity]).
  rewrite update_cursor_bookmark_again by reflexivity. reflexivity.
Qed.

(** *** The cursor token is persisted first *)

(** A pass that gets no audit from the generator touches nothing. *)
Lemma pass_without_audit (b : Z) (g : audit_generator) (s : State) :
  (forall audit g', gen_next g <> GYield audit g') ->
  (exists g', advance_cursor_pass parse b g s = LoopEnd g' s
              /\ audits_loop g s = Returned s)
  \/ (exists e g', advance_cursor_pass parse b g s = Throw e g' s
                   /\ audits_loop g s = Raised e s).
Proof.
  intros Hno. unfold advance_cursor_pass, audits_loop.
  destruct (gen_next g) as [audit g' | g' | e g'].
  - by destruct (Hno audit g').
  - left. by exists g'.
  - right. by exists e, g'.
Qed.


End Audits.

Lemma advance_cursor_repositions_witness :
  exists (g3 : audit_generator) (s' : State),
    values g3 = [audit1; audit2; audit3; audit4; audit5]
    /\ position g3 = 3
    /\ advance_cursor iso8601 reverse_buffer
         (requested_audits demo_client
            (state_with TicketAudits (VStr "2020-01-01T00:00:02Z")))
         (1577836803 - 1)
         (state_with TicketAudits (VStr "2020-01-01T00:00:02Z"))
       = AcReturn (rewind g3) s'
    /\ position (rewind g3) = 2
    /\ py_index (values (rewind g3)) (position (rewind g3)) = Some audit3
    /\ gen_next (rewind g3) = GYield audit3 g3
    /\ next iso8601 reverse_buffer TicketAudits demo_client Created
         (state_with TicketAudits (VStr "2020-01-01T00:00:02Z"))
       = Yielded audit3 (AtAuditYield g3)
           (update_bookmark TicketAudits s' (created_at audit3)).
Proof.
  apply (advance_cursor_repositions iso8601 reverse_buffer 1577836803
           audit1 audit2 audit3 audit4 audit5 demo_client
           (state_with TicketAudits (VStr "2020-01-01T00:00:02Z")));
    vm_compute; reflexivity.
Defined.


(** ** Organizations, end to end *)

Section EndToEnd.

Variable parse : string -> option Z.
Variable reversed_gen : audit_generator -> audit_generator.

(** Without a stored bookmark no [sync] generator gets past its first
    [next()]. *)
Lemma get_bookmark_empty_state (self : stream_class) :
  get_bookmark parse self ∅ = Err ParserTypeError.
Proof.
  unfold get_bookmark, singer_get_bookmark.
  rewrite lookup_empty. cbn [default]. rewrite lookup_empty. reflexivity.
Qed.

(** C5, amended. With a state whose [updated_at] bookmark for
    ["organizations"] parses, and a client that answers with two records
    updated at ["2020-01-01T00:00:00Z"] and ["2020-01-02T00:00:00Z"], [sync]
    emits both in that order and [state["organizations"]["updated_at"]] is
    ["2020-01-02T00:00:00Z"] afterwards. *)
Theorem organizations_end_to_end (client : Client) (state : State)
    (bookmark : Z) (r1 r2 : zobject) :
  get_bookmark parse Organizations state = Ok bookmark ->
  organizations_incremental client bookmark = [r1; r2] ->
  updated_at r1 = VStr "2020-01-01T00:00:00Z" ->
  updated_at r2 = VStr "2020-01-02T00:00:00Z" ->
  exists s1 sf,
    run parse reversed_gen Organizations client 3 state
    = Some ([(r1, s1); (r2, sf)], Exhausted, sf)
    /\ sf !! Some "organizations" ≫= (fun m => m !! Some "updated_at")
       = Some (VStr "2020-01-02T00:00:00Z").
Proof.
  intros Hb Hfeed H1 H2.
  exists (update_bookmark Organizations state (updated_at r1)),
         (update_bookmark Organizations
            (update_bookmark Organizations state (updated_at r1)) (updated_at r2)).
  split.
  - unfold run. cbn [sync next consume timestamp_next].
    rewrite Hb, Hfeed. reflexivity.
  - rewrite H2. unfold update_bookmark, singer_write_bookmark.
    cbn [name replication_key].
    rewrite lookup_insert_eq. cbn. apply lookup_insert_eq.
Qed.

(** *** Reading the bookmark *)

Lemma get_bookmark_stored (self : stream_class) (state : State) :
get_bookmark parse self state
= match state !! name self ≫= (fun m => m !! replication_key self) with
  | None | Some VNone => Err ParserTypeError
  | Some (VStr s) =>
      match parse s with
      | Some t => Ok t
      | None => Err ParserValueError
      end
  end.
Proof.
unfold get_bookmark, singer_get_bookmark, strptime_with_tz.
destruct (state !! name self) as [m|]; cbn.
- destruct (m !! replication_key self) as [[|s]|]; reflexivity.
- rewrite lookup_empty. reflexivity.
Qed.

(** C6. For every class, [get_bookmark] is decided by the value stored at
  [state[name][replication_key]]: a missing entry or a stored [None] is a
  parser failure, a string the parser rejects is a parser failure, and a
  timestamp comes back only when the stored value is a string that parses to
  it; no other value is ever substituted. *)
Theorem get_bookmark_parse_failure (self : stream_class) (state : State) :
(state !! name self ≫= (fun m => m !! replication_key self) = None ->
 get_bookmark parse self state = Err ParserTypeError)
/\ (state !! name self ≫= (fun m => m !! replication_key self) = Some VNone ->
    get_bookmark parse self state = Err ParserTypeError)
/\ (forall s, state !! name self ≫= (fun m => m !! replication_key self)
              = Some (VStr s) ->
              parse s = None ->
              get_bookmark parse self state = Err ParserValueError)
/\ (forall t, get_bookmark parse self state = Ok t <->
              exists s, state !! name self ≫= (fun m => m !! replication_key self)
                        = Some (VStr s)
                        /\ parse s = Some t).
Proof.
rewrite get_bookmark_stored.
destruct (state !! name self ≫= _) as [[|s]|].
- split; [discriminate|]. split; [reflexivity|]. split; [discriminate|].
  intros t. split; [discriminate|]. intros (s & Hs & _). discriminate.
- split; [discriminate|]. split; [discriminate|]. split.
  + intros s0 [= <-] Hp. by rewrite Hp.
  + intros t. split.
    * destruct (parse s) as [t'|] eqn:Hp; [|discriminate].
      intros [= ->]. by exists s.
    * intros (s' & [= <-] & Hp). by rewrite Hp.
- split; [reflexivity|]. split; [discriminate|]. split; [discriminate|].
  intros t. split; [discriminate|]. intros (s & Hs & _). discriminate.
Qed.

(** *** Tags *)

Lemma consume_iterator (rest : list zobject) :
  forall (s : State),
    consume iterator_next (S (length rest)) (Iterating rest) s
    = Some (map (fun r => (r, s)) rest, Exhausted, s).
Proof.
  induction rest as [|r rest IH]; intros s; [reflexivity|].
  change (length (r :: rest)) with (S (length rest)).
  specialize (IH s). simpl in IH |- *. rewrite IH. reflexivity.
Qed.

(** C7. Consuming [Tags.sync] gives the client's collection whatever the
    state is, so two states give the same output sequence, and neither
    state is changed; [Tags.key_properties] is the empty list. *)
Theorem tags_sync_ignores_state (client : Client) (s1 s2 : State) :
  (exists tr1 tr2,
      run parse reversed_gen Tags client (S (length (tags client))) s1
      = Some (tr1, Exhausted, s1)
      /\ run parse reversed_gen Tags client (S (length (tags client))) s2
         = Some (tr2, Exhausted, s2)
      /\ map fst tr1 = tags client
      /\ map fst tr2 = map fst tr1)
  /\ key_properties Tags = [].
Proof.
  split; [|reflexivity].
  exists (map (fun r => (r, s1)) (tags client)),
         (map (fun r => (r, s2)) (tags client)).
  unfold run. cbn [sync next]. rewrite !consume_iterator.
  rewrite !List.map_map. cbn [fst]. rewrite List.map_id.
  repeat split; reflexivity.
Qed.

(** *** Calling [sync] *)

(** C9. For every incremental class, the call [sync(state)] returns a
    generator whose body has not been entered and leaves the state as it
    was. *)
Theorem sync_call_is_lazy (self : stream_class) (client : Client) (state : State) :
  replication_method self = Some "INCREMENTAL" ->
  sync self client state = (Created, state).
Proof. destruct self; first [reflexivity | discriminate]. Qed.

End EndToEnd.

Lemma organizations_end_to_end_witness :
  exists s1 sf,
    run iso8601 reverse_buffer Organizations demo_client 3
        (state_with Organizations (VStr "2019-12-31T00:00:00Z"))
    = Some ([(org1, s1); (org2, sf)], Exhausted, sf)
    /\ sf !! Some "organizations" ≫= (fun m => m !! Some "updated_at")
       = Some (VStr "2020-01-02T00:00:00Z").
Proof.
  apply (organizations_end_to_end iso8601 reverse_buffer demo_client
           (state_with Organizations (VStr "2019-12-31T00:00:00Z"))
           1577750400 org1 org2).
  - vm_compute. reflexivity.
  - reflexivity.
  - reflexivity.
  - reflexivity.
Defined.

(** C5 as stated fails: on the empty state the first [next()] raises the
    parser's error, nothing is emitted and the state stays empty. *)
Lemma organizations_empty_state_fails :
  run iso8601 reverse_buffer Organizations demo_client 3 ∅
  = Some ([], Failed ParserTypeError, ∅)
  /\ ~ (exists fuel tr e sf,
          run iso8601 reverse_buffer Organizations demo_client fuel ∅
          = Some (tr, e, sf)
          /\ map fst tr = [org1; org2]).
Proof.
  assert (H : forall fuel,
             run iso8601 reverse_buffer Organizations demo_client (S fuel) ∅
             = Some ([], Failed ParserTypeError, ∅)).
  { intros fuel. unfold run. cbn [sync next consume timestamp_next].
    rewrite get_bookmark_empty_state. reflexivity. }
  split; [apply H|].
  intros (fuel & tr & e & sf & Hrun & Htr).
  destruct fuel as [|fuel]; [discriminate|].
  rewrite H in Hrun. injection Hrun as <- _ _. discriminate.
Qed.

Lemma sync_call_is_lazy_witness :
  sync TicketAudits demo_client ∅ = (Created, ∅).
Proof.
  apply (sync_call_is_lazy TicketAudits demo_client ∅). reflexivity.
Defined.

(** ** The registry *)

(** C10. Every key of [STREAMS] is the [name] of its class, every class has
    a replication method, and every incremental class has a replication
    key. *)
Theorem registry_consistent :
  Forall (fun entry =>
            name (snd entry) = Some (fst entry)
            /\ replication_method (snd entry) ≠ None
            /\ (replication_method (snd entry) = Some "INCREMENTAL" ->
                replication_key (snd entry) ≠ None))
         STREAMS.
Proof. unfold STREAMS. repeat constructor; cbn; discriminate. Qed.

(** ** Metadata *)

Lemma dict_get_set_same {K V : Type} `{EqDecision K} (k : K) (v : V) (d : list (K * V)) :
  dict_get k (dict_set k v d) = Some v.
Proof.
  induction d as [|[k' v'] d IH]; cbn.
  - by rewrite decide_True.
  - destruct (decide (k = k')) as [Heq | Hne]; cbn.
    + by rewrite decide_True.
    + by rewrite decide_False.
Qed.

Lemma dict_get_set_other {K V : Type} `{EqDecision K} (k k0 : K) (v : V)
    (d : list (K * V)) :
  k ≠ k0 -> dict_get k (dict_set k0 v d) = dict_get k d.
Proof.
  intros Hne. induction d as [|[k' v'] d IH]; cbn.
  - by rewrite decide_False.
  - destruct (decide (k0 = k')) as [Heq | Hne0]; cbn.
    + subst k'. by rewrite !decide_False.
    + destruct (decide (k = k')); [reflexivity | exact IH].
Qed.

Lemma write_inclusions_spec (fields : list string) :
  forall (md : compiled_metadata),
  exists md',
    write_inclusions fields md = Ok md'
    /\ (forall bc, (forall f, In f fields -> bc ≠ ["properties"; f]) ->
                   dict_get bc md' = dict_get bc md)
    /\ (forall f, In f fields -> inclusion_of md' f = Some (inclusion_written f)).
Proof.
  induction fields as [|f0 fields IH]; intros md.
  - exists md. split; [reflexivity|]. split; [reflexivity|]. intros f [].
  - cbn [write_inclusions metadata_write].
    set (md1 := dict_set ["properties"; f0] _ md).
    destruct (IH md1) as (md' & Hw & Hframe & Hincl).
    exists md'. split; [exact Hw|]. split.
    + intros bc Hbc. rewrite Hframe.
      * apply dict_get_set_other. apply Hbc. by left.
      * intros f Hf. apply Hbc. by right.
    + intros f Hf.
      destruct (List.in_dec String.string_dec f fields) as [Hin | Hnin];
        [by apply Hincl|].
      destruct Hf as [<- | Hf]; [|contradiction].
      unfold inclusion_of. rewrite Hframe.
      * unfold md1. rewrite dict_get_set_same. cbn [mbind option_bind].
        rewrite dict_get_set_same.
        unfold inclusion_written. by destruct (bool_decide _).
      * intros f Hf [= ->]. contradiction.
Qed.

(** What [load_metadata] produces for any class and any schema: the two
    table-level annotations come from the class, the inclusion of a field
    from membership in the module constant [KEY_PROPERTIES]. *)
Lemma load_metadata_spec (self : stream_class) (properties : list string) :
  exists md,
    load_metadata self properties = Ok md
    /\ table_annotation md "table-key-properties" = Some (MList (key_properties self))
    /\ table_annotation md "forced-replication-method"
       = MStr <$> replication_method self
    /\ forall f, In f properties -> inclusion_of md f = Some (inclusion_written f).
Proof.
  unfold load_metadata.
  assert (Hm : exists m, replication_method self = Some m)
    by (destruct self; eexists; reflexivity).
  destruct Hm as [m Hm]. rewrite Hm. cbn [fmap option_fmap option_map metadata_write].
  match goal with
  | |- context [write_inclusions properties ?md2] =>
      destruct (write_inclusions_spec properties md2) as (md' & Hw & Hframe & Hincl);
      rewrite Hw
  end.
  exists md'. split; [reflexivity|].
  unfold table_annotation.
  rewrite Hframe by (intros f _; discriminate).
  split; [reflexivity|]. split; [reflexivity|]. exact Hincl.
Qed.

(** For the classes that inherit [key_properties], the inclusion written is
    the one the class's own key properties call for. *)
Lemma load_metadata_inherited_keys (self : stream_class) (properties : list string) :
  self ≠ Tags ->
  exists md,
    load_metadata self properties = Ok md
    /\ forall f, In f properties ->
         inclusion_of md f
         = Some (MStr (if bool_decide (f ∈ key_properties self)
                       then "automatic" else "available")).
Proof.
  intros Hne. destruct (load_metadata_spec self properties) as (md & Hmd & _ & _ & Hincl).
  exists md. split; [exact Hmd|].
  intros f Hf. rewrite (Hincl f Hf). unfold inclusion_written.
  by destruct self.
Qed.



(** Outside that precondition the annotation follows the module constant: a
    Tags schema that had a field ["id"] would get it tagged [automatic],
    although [Tags.key_properties], which the same list reports as
    table-key-properties, is empty. *)
Remark load_metadata_tags_id :
  load_metadata Tags ["id"; "name"]
  = Ok [ ([], [("table-key-properties", MList []);
               ("forced-replication-method", MStr "FULL_TABLE")]);
         (["properties"; "id"], [("inclusion", MStr "automatic")]);
         (["properties"; "name"], [("inclusion", MStr "available")]) ]
  /\ ~ In "id" (key_properties Tags).
Proof. split; [vm_compute; reflexivity | intros []]. Qed.

(** ** The timestamp reader of the examples *)

Example iso8601_epoch : iso8601 "1970-01-01T00:00:00Z" = Some 0.
Proof. reflexivity. Qed.

Example iso8601_2020 : iso8601 "2020-01-02T00:00:00Z" = Some 1577923200.
Proof. reflexivity. Qed.

Example iso8601_malformed : iso8601 "yesterday" = None.
Proof. reflexivity. Qed.

(** * Further properties of the module *)

(** ** Bookmarks *)

Lemma name_injective (self other : stream_class) :
  name self = name other -> self = other.
Proof. destruct self, other; first [reflexivity | discriminate]. Qed.

Section Bookmarks.

Variable parse : string -> option Z.

(** X1. Reading a bookmark back: after [update_bookmark(state, v)],
    [get_bookmark] of the same class is the parse of [v], whatever the state
    held before. *)
Theorem get_bookmark_after_update (self : stream_class) (state : State) (v : value) :
  get_bookmark parse self (update_bookmark self state v) = strptime_with_tz parse v.
Proof.
  unfold get_bookmark, update_bookmark. by rewrite get_write_same.
Qed.

(** X2. [update_bookmark] of one class changes neither the bookmark of any
    other class nor the audit cursor token. *)
Theorem update_bookmark_elsewhere (self other : stream_class) (state : State)
    (v : value) :
  (self ≠ other ->
   get_bookmark parse other (update_bookmark self state v)
   = get_bookmark parse other state)
  /\ stored_cursor (update_bookmark self state v) = stored_cursor state.
Proof.
  split.
  - intros Hne. unfold get_bookmark, update_bookmark.
    rewrite get_write_other_stream; [reflexivity|].
    intros Heq. apply Hne. by apply name_injective.
  - unfold stored_cursor, update_bookmark.
    destruct (decide (self = TicketAudits)) as [-> | Hne].
    + apply get_write_other_key. discriminate.
    + apply get_write_other_stream. intros Heq. apply Hne. by apply name_injective.
Qed.

End Bookmarks.

Lemma write_bookmark_overwrite (state : State) (id key : pykey) (v1 v2 : value) :
  singer_write_bookmark (singer_write_bookmark state id key v1) id key v2
  = singer_write_bookmark state id key v2.
Proof.
  unfold singer_write_bookmark.
  rewrite lookup_insert_eq. simpl.
  rewrite !insert_insert_eq. reflexivity.
Qed.

(** X3. Two [update_bookmark] calls of one class in a row leave the state the
    second one alone would leave: the last write wins and nothing else of the
    first remains. *)
Theorem update_bookmark_twice (self : stream_class) (state : State) (v1 v2 : value) :
  update_bookmark self (update_bookmark self state v1) v2
  = update_bookmark self state v2.
Proof. unfold update_bookmark. apply write_bookmark_overwrite. Qed.

(** X4. [update_cursor_bookmark] can only change the [cursor_value] entry of
    ["ticket-audits"]: every other stream's entry stays the same dictionary,
    and every other field of ["ticket-audits"] reads the same. *)
Theorem update_cursor_bookmark_elsewhere (state : State) (g : audit_generator) :
  (forall id, id ≠ name TicketAudits ->
              update_cursor_bookmark state g !! id = state !! id)
  /\ (forall key, key ≠ Some "cursor_value" ->
                  singer_get_bookmark (update_cursor_bookmark state g)
                                      (name TicketAudits) key
                  = singer_get_bookmark state (name TicketAudits) key).
Proof.
  unfold update_cursor_bookmark. case_bool_decide; cbn [negb].
  - split; reflexivity.
  - split.
    + intros id Hne. unfold singer_write_bookmark. by rewrite lookup_insert_ne.
    + intros key Hne. by apply get_write_other_key.
Qed.

(** ** The [sync] generators beyond the well-formed case *)

Section Generators.

Variable parse : string -> option Z.
Variable reversed_gen : audit_generator -> audit_generator.

(** X5. When the stored bookmark is missing or does not parse, [sync] of
    every incremental class raises that error at its first [next()]: no
    record is emitted and the state is left as it was. *)
Theorem sync_fails_on_bad_bookmark (self : stream_class) (client : Client)
    (state : State) (e : exn) (fuel : nat) :
  replication_method self = Some "INCREMENTAL" ->
  get_bookmark parse self state = Err e ->
  run parse reversed_gen self client (S fuel) state = Some ([], Failed e, state).
Proof.
  intros Hm Hb. unfold run.
  destruct self; try discriminate Hm;
    cbn [sync next consume timestamp_next manual_next audits_next];
    rewrite Hb; reflexivity.
Qed.

(** X6. A timestamp-filtered [sync] does no checking of its own: whatever the
    feed holds is emitted in order, and the bookmark read after the run is
    the parse of the last record's [updated_at], so a last record without a
    readable timestamp leaves a bookmark the next run cannot read. *)
Theorem timestamp_sync_unfiltered (self : stream_class) (client : Client)
    (state : State) (bookmark : Z) (fuel : nat)
    (init : list zobject) (r_last : zobject) :
  In self timestamp_filtered ->
  get_bookmark parse self state = Ok bookmark ->
  incremental_feed client self bookmark = (init ++ [r_last])%list ->
  (length (init ++ [r_last])%list < fuel)%nat ->
  exists tr sf,
    run parse reversed_gen self client fuel state = Some (tr, Exhausted, sf)
    /\ map fst tr = (init ++ [r_last])%list
    /\ get_bookmark parse self sf = strptime_with_tz parse (updated_at r_last).
Proof.
  intros Hself Hb Hfeed Hfuel.
  exists (emitted self state (init ++ [r_last])%list),
         (final_state self state (init ++ [r_last])%list).
  split; [|split].
  - rewrite (run_timestamp parse reversed_gen) by exact Hself.
    rewrite (consume_timestamp_created parse _ _ bookmark) by exact Hb.
    rewrite Hfeed. apply consume_timestamp, Hfuel.
  - apply emitted_records.
  - unfold get_bookmark. fold (stored_bookmark self (final_state self state (init ++ [r_last])%list)).
    rewrite final_state_last, List.map_app. cbn [map].
    by rewrite List.last_last.
Qed.

Lemma consume_upto_timestamp (self : stream_class) (feed : Z -> list zobject)
    (b : Z) (n : nat) :
  forall (rest : list zobject) (s : State),
    consume_upto (timestamp_next parse self feed) n (AtYield rest b) s
    = (take n rest, final_state self s (take n rest)).
Proof.
  induction n as [|n IH]; intros rest s; [reflexivity|].
  destruct rest as [|r rest]; [reflexivity|].
  cbn [consume_upto timestamp_next timestamp_loop]. rewrite IH. reflexivity.
Qed.

(** X7. A consumer that stops after [n] records of a timestamp-filtered
    [sync] has received the first [n] records of the feed, and the stored
    bookmark is the timestamp of the last record it received (the starting
    one if it received none). *)
Theorem timestamp_sync_interrupted (self : stream_class) (client : Client)
    (state : State) (bookmark : Z) (n : nat) :
  In self timestamp_filtered ->
  get_bookmark parse self state = Ok bookmark ->
  exists sf,
    consume_upto (next parse reversed_gen self client) n
                 (fst (sync self client state)) (snd (sync self client state))
    = (take n (incremental_feed client self bookmark), sf)
    /\ stored_bookmark self sf
       = List.last (map updated_at (take n (incremental_feed client self bookmark)))
                   (stored_bookmark self state).
Proof.
  intros Hself Hb.
  exists (final_state self state (take n (incremental_feed client self bookmark))).
  split; [|apply final_state_last].
  assert (Hnext : next parse reversed_gen self client
                  = timestamp_next parse self (incremental_feed client self)
                  /\ sync self client state = (Created, state)).
  { simpl in Hself. destruct Hself as [<- | [<- | [<- | [<- | []]]]]; by split. }
  destruct Hnext as [-> ->]. cbn [fst snd].
  destruct n as [|n]; [reflexivity|].
  pose proof (consume_upto_timestamp self (incremental_feed client self) bookmark
                (S n) (incremental_feed client self bookmark) state) as H.
  cbn [consume_upto timestamp_next] in H |- *. rewrite Hb. exact H.
Qed.

(** *** Manual-filter streams on any collection *)

Lemma consume_manual_any (self : stream_class) (coll : list zobject) (b : Z)
    (rest : list zobject) :
  forall (s : State) (fuel : nat),
    (length rest < fuel)%nat ->
    consume (manual_next parse self coll) fuel (AtYield rest b) s
    = Some (emitted self s (List.filter (fresh parse b) (readable parse rest)),
            walk_ending parse rest,
            final_state self s (List.filter (fresh parse b) (readable parse rest))).
Proof.
  induction rest as [|r rest IH]; intros s fuel Hfuel.
  - destruct fuel; [simpl in Hfuel; lia | reflexivity].
  - destruct fuel as [|fuel]; [simpl in Hfuel; lia|].
    simpl in Hfuel. cbn [readable walk_ending].
    destruct (strptime_with_tz parse (updated_at r)) as [t | e] eqn:Ht.
    + cbn [List.filter]. rewrite (fresh_spec parse b r t Ht).
      destruct (Z.leb_spec b t) as [Hle | Hlt].
      * cbn [consume manual_next].
        rewrite (manual_loop_fresh parse self b r rest s t Ht Hle).
        rewrite IH by lia. reflexivity.
      * specialize (IH s (S fuel) ltac:(lia)).
        cbn [consume manual_next] in IH |- *.
        rewrite (manual_loop_stale parse self b r rest s t Ht Hlt). exact IH.
    + cbn [consume manual_next manual_loop]. rewrite Ht. reflexivity.
Qed.

(** X8. A manual-filter [sync] on any collection: it works through the
    records up to the first one whose [updated_at] does not parse, emitting
    those at or after the bookmark and setting the bookmark at each; at that
    record it raises the parser's error, keeping what it has written; with no
    such record it ends normally. *)
Theorem manual_sync_any_collection (self : stream_class) (client : Client)
    (state : State) (bookmark : Z) (fuel : nat) :
  In self manual_filter ->
  get_bookmark parse self state = Ok bookmark ->
  (length (collection_of client self) < fuel)%nat ->
  run parse reversed_gen self client fuel state
  = Some (emitted self state
            (List.filter (fresh parse bookmark)
                         (readable parse (collection_of client self))),
          walk_ending parse (collection_of client self),
          final_state self state
            (List.filter (fresh parse bookmark)
                         (readable parse (collection_of client self)))).
Proof.
  intros Hself Hb Hfuel.
  rewrite (run_manual parse reversed_gen) by exact Hself.
  rewrite (consume_manual_created parse _ _ bookmark) by exact Hb.
  apply consume_manual_any, Hfuel.
Qed.

End Generators.

(** ** The audit reconciliation in general *)

Lemma gen_next_in_buffer (l : list zobject) (bc : value) (nps : list page)
    (n : nat) (x : zobject) :
  l !! n = Some x ->
  gen_next (buffered l bc nps (Z.of_nat n))
  = GYield x (buffered l bc nps (Z.of_nat (S n))).
Proof.
  intros Hx. pose proof (lookup_lt_Some _ _ _ Hx) as Hlt.
  rewrite (gen_next_buffered (buffered l bc nps (Z.of_nat n)) x).
  - unfold buffered. cbn [values position before_cursor next_pages].
    do 2 f_equal. lia.
  - cbn [buffered values position]. lia.
  - cbn [buffered values position]. by rewrite Nat2Z.id.
Qed.

Lemma gen_next_past_buffer (l : list zobject) (bc : value) (n : nat) :
  (length l <= n)%nat ->
  gen_next (buffered l bc [] (Z.of_nat n)) = GStop (buffered l bc [] (Z.of_nat n)).
Proof.
  intros Hle. unfold gen_next. cbn [buffered values position].
  destruct (Z.leb_spec (Z.of_nat (length l)) (Z.of_nat n)); [reflexivity | lia].
Qed.

Lemma rewind_buffered (l : list zobject) (bc : value) (nps : list page) (n : nat) :
  rewind (buffered l bc nps (Z.of_nat (S n))) = buffered l bc nps (Z.of_nat n).
Proof. unfold rewind, buffered. cbn. f_equal. lia. Qed.

Lemma last_cons {A : Type} (x : A) (l : list A) (d : A) :
  List.last (x :: l) d = List.last l x.
Proof.
  revert x. induction l as [|y l IH]; intros x; [reflexivity|].
  change (List.last (y :: l) d = List.last (y :: l) x). apply last_nonempty.
Qed.

Section Reconciliation.

Variable parse : string -> option Z.
Variable reversed_gen : audit_generator -> audit_generator.

(** X9. The loop of [advance_cursor] ends on every generator: with any fuel
    above the count of records and pages the generator still has, it returns
    the result of [advance_cursor], so the bound inside [advance_cursor] is
    never what stops it. *)
Theorem advance_cursor_terminates (g : audit_generator) (b : Z) (s : State)
    (fuel : nat) :
  (gen_measure (reversed_gen g) < fuel)%nat ->
  advance_cursor_loop parse fuel b (reversed_gen g) s
  = Some (advance_cursor parse reversed_gen g b s).
Proof.
  intros Hfuel.
  destruct (advance_cursor_loop_enough parse b fuel (reversed_gen g) s Hfuel)
    as [r Hr].
  rewrite Hr. f_equal. symmetry.
  eapply advance_cursor_of_loop, Hr.
Qed.

Lemma advance_cursor_loop_step (fuel : nat) (b : Z) (g : audit_generator) (s : State) :
  advance_cursor_loop parse (S fuel) b g s
  = match advance_cursor_pass parse b g s with
    | Continue g' s' => advance_cursor_loop parse fuel b g' s'
    | Break g' s' => Some (AcReturn g' s')
    | LoopEnd g' s' => Some (AcReturn g' s')
    | Throw e _ s' => Some (AcRaise e s')
    end.
Proof. reflexivity. Qed.

Lemma advance_cursor_loop_skips (b : Z) (bc : value) (nps : list page)
    (a : zobject) (rest : list zobject) (ta : Z) :
  strptime_with_tz parse (created_at a) = Ok ta ->
  b <= ta ->
  forall (older pre : list zobject) (s : State),
    Forall (fun x => exists t, strptime_with_tz parse (created_at x) = Ok t /\ t < b)
           older ->
    advance_cursor_loop parse (S (length older)) b
      (buffered (pre ++ older ++ a :: rest)%list bc nps (Z.of_nat (length pre))) s
    = Some (AcReturn
              (buffered (pre ++ older ++ a :: rest)%list bc nps
                        (Z.of_nat (length pre + length older)))
              (update_cursor_bookmark s
                 (buffered (pre ++ older ++ a :: rest)%list bc nps 0))).
Proof.
  intros Ha Hle. induction older as [|o older IH]; intros pre s Hold.
  - cbn [app length]. rewrite advance_cursor_loop_step.
    rewrite (pass_reached parse b _ (buffered (pre ++ a :: rest)%list bc nps
                                         (Z.of_nat (S (length pre)))) s a ta);
      [| apply gen_next_in_buffer, list_lookup_middle; reflexivity | exact Ha | exact Hle].
    rewrite rewind_buffered, Nat.add_0_r. reflexivity.
  - apply List.Forall_cons_iff in Hold as [(t & Ht & Hlt) Hold].
    cbn [length]. rewrite advance_cursor_loop_step.
    rewrite (pass_older parse b _ (buffered (pre ++ (o :: older) ++ a :: rest)%list bc nps
                                     (Z.of_nat (S (length pre)))) s o t);
      [| apply gen_next_in_buffer, list_lookup_middle; reflexivity | exact Ht | exact Hlt].
    specialize (IH (pre ++ [o])%list
                  (update_cursor_bookmark s
                     (buffered (pre ++ (o :: older) ++ a :: rest)%list bc nps
                               (Z.of_nat (S (length pre))))) Hold).
    rewrite <- !app_assoc in IH. cbn [app] in IH |- *.
    rewrite length_app in IH. cbn [length] in IH.
    replace (length pre + 1)%nat with (S (length pre)) in IH by lia.
    rewrite IH.
    replace (S (length pre) + length older)%nat
      with (length pre + S (length older))%nat by lia.
    do 2 f_equal.
    rewrite update_cursor_bookmark_again by reflexivity. reflexivity.
Qed.

(** X10. The reverse pass in general: when the buffered page, as [reversed]
    leaves it, starts with audits older than the bookmark followed by one at
    or after it, [advance_cursor] returns the generator with its index on
    that audit (the number of older audits), the cursor token persisted, and
    the next [next()] hands out that audit. *)
Theorem advance_cursor_skips_older (g : audit_generator) (b : Z) (state : State)
    (older : list zobject) (a : zobject) (rest : list zobject) :
  values (reversed_gen g) = (older ++ a :: rest)%list ->
  position (reversed_gen g) = 0 ->
  Forall (fun x => exists t, strptime_with_tz parse (created_at x) = Ok t /\ t < b)
         older ->
  (exists t, strptime_with_tz parse (created_at a) = Ok t /\ b <= t) ->
  exists g',
    advance_cursor parse reversed_gen g b state
    = AcReturn g' (update_cursor_bookmark state (reversed_gen g))
    /\ values g' = (older ++ a :: rest)%list
    /\ position g' = Z.of_nat (length older)
    /\ before_cursor g' = before_cursor (reversed_gen g)
    /\ next_pages g' = next_pages (reversed_gen g)
    /\ exists g'', gen_next g' = GYield a g''
                   /\ position g'' = Z.of_nat (length older) + 1.
Proof.
  intros Hvals Hpos Hold (ta & Ha & Hle).
  destruct (reversed_gen g) as [vals pos bc nps] eqn:Hit.
  cbn in Hvals, Hpos. subst vals pos.
  exists (buffered (older ++ a :: rest)%list bc nps (Z.of_nat (length older))).
  split; [|split; [reflexivity|split; [reflexivity|split; [reflexivity|split;
            [reflexivity|]]]]].
  - apply (advance_cursor_of_loop parse reversed_gen (S (length older))).
    rewrite Hit.
    exact (advance_cursor_loop_skips b bc nps a rest ta Ha Hle older [] state Hold).
  - exists (buffered (older ++ a :: rest)%list bc nps (Z.of_nat (S (length older)))).
    split; [apply gen_next_in_buffer, list_lookup_middle; reflexivity|].
    cbn [buffered position]. lia.
Qed.

End Reconciliation.

Lemma advance_cursor_skips_older_witness :
  exists g',
    advance_cursor iso8601 reverse_buffer (demo_audits VNone) 1577836802 ∅
    = AcReturn g' (update_cursor_bookmark ∅ (reverse_buffer (demo_audits VNone)))
    /\ values g' = ([audit1; audit2] ++ audit3 :: [audit4; audit5])%list
    /\ position g' = Z.of_nat (length [audit1; audit2])
    /\ before_cursor g' = before_cursor (reverse_buffer (demo_audits VNone))
    /\ next_pages g' = next_pages (reverse_buffer (demo_audits VNone))
    /\ exists g'', gen_next g' = GYield audit3 g''
                   /\ position g'' = Z.of_nat (length [audit1; audit2]) + 1.
Proof.
  apply (advance_cursor_skips_older iso8601 reverse_buffer (demo_audits VNone)
           1577836802 ∅ [audit1; audit2] audit3 [audit4; audit5]).
  - reflexivity.
  - reflexivity.
  - repeat constructor; eexists; (split; [vm_compute; reflexivity | lia]).
  - eexists; split; [vm_compute; reflexivity | lia].
Defined.

Lemma advance_cursor_terminates_witness :
  advance_cursor_loop iso8601 6 0 (reverse_buffer (demo_audits VNone)) ∅
  = Some (advance_cursor iso8601 reverse_buffer (demo_audits VNone) 0 ∅).
Proof.
  apply (advance_cursor_terminates iso8601 reverse_buffer (demo_audits VNone) 0 ∅ 6).
  vm_compute. lia.
Defined.

(** ** [TicketAudits.sync] on one buffered page *)

Section AuditEmission.

Variable parse : string -> option Z.
Variable reversed_gen : audit_generator -> audit_generator.

Lemma audits_loop_in_buffer (l : list zobject) (bc : value) (n : nat)
    (x : zobject) (s : State) :
  l !! n = Some x ->
  audits_loop (buffered l bc [] (Z.of_nat n)) s
  = Yielded x (AtAuditYield (buffered l bc [] (Z.of_nat (S n))))
      (update_bookmark TicketAudits
         (update_cursor_bookmark s (buffered l bc [] 0)) (created_at x)).
Proof.
  intros Hx. unfold audits_loop. rewrite (gen_next_in_buffer l bc [] n x Hx).
  reflexivity.
Qed.

Lemma consume_audits_buffer (client : Client) (bc : value) (todo : list zobject) :
  forall (pre : list zobject) (s : State) (fuel : nat),
    (length todo < fuel)%nat ->
    exists tr sf,
      consume (audits_next parse reversed_gen client) fuel
        (AtAuditYield (buffered (pre ++ todo)%list bc [] (Z.of_nat (length pre)))) s
      = Some (tr, Exhausted, sf)
      /\ map fst tr = todo
      /\ (forall x s', In (x, s') tr ->
            stored_bookmark TicketAudits s' = created_at x
            /\ stored_cursor s' = bc)
      /\ stored_bookmark TicketAudits sf
         = List.last (map created_at todo) (stored_bookmark TicketAudits s)
      /\ (todo ≠ [] -> stored_cursor sf = bc).
Proof.
  induction todo as [|x todo IH]; intros pre s fuel Hfuel.
  - destruct fuel as [|fuel]; [simpl in Hfuel; lia|].
    exists [], s. cbn [consume audits_next]. unfold audits_loop.
    rewrite gen_next_past_buffer by (rewrite app_nil_r; lia).
    split; [reflexivity|]. split; [reflexivity|].
    split; [intros x s' []|]. split; [reflexivity | congruence].
  - destruct fuel as [|fuel]; [simpl in Hfuel; lia|].
    simpl in Hfuel.
    set (s2 := update_bookmark TicketAudits
                 (update_cursor_bookmark s
                    (buffered (pre ++ x :: todo)%list bc [] 0)) (created_at x)).
    assert (Hs2 : stored_bookmark TicketAudits s2 = created_at x
                  /\ stored_cursor s2 = bc).
    { split; [apply stored_update_bookmark|].
      unfold s2, stored_cursor, update_bookmark.
      rewrite get_write_other_key by discriminate.
      apply (update_cursor_bookmark_stored s (buffered (pre ++ x :: todo)%list bc [] 0)). }
    destruct (IH (pre ++ [x])%list s2 fuel ltac:(lia))
      as (tr & sf & Hrun & Htr & Hsnap & Hlast & Hcur).
    rewrite <- app_assoc, length_app in Hrun. cbn [app length] in Hrun.
    replace (length pre + 1)%nat with (S (length pre)) in Hrun by lia.
    exists ((x, s2) :: tr), sf.
    cbn [consume audits_next].
    rewrite (audits_loop_in_buffer _ bc (length pre) x s)
      by (apply list_lookup_middle; reflexivity).
    fold s2. rewrite Hrun.
    split; [reflexivity|]. split; [cbn; by rewrite Htr|]. split; [|split].
    + intros y s' [[= <- <-] | Hin]; [exact Hs2 | by apply Hsnap].
    + rewrite Hlast. destruct Hs2 as [-> _]. cbn [map]. symmetry. apply last_cons.
    + intros _. destruct todo as [|y todo].
      * cbn [consume audits_next] in Hrun. unfold audits_loop in Hrun.
        destruct fuel as [|fuel]; [simpl in Hfuel; lia|].
        cbn [consume audits_next] in Hrun. unfold audits_loop in Hrun.
        rewrite (gen_next_past_buffer (pre ++ [x])%list bc (S (length pre))) in Hrun
          by (rewrite length_app; cbn; lia).
        injection Hrun as _ <-. apply Hs2.
      * apply Hcur. discriminate.
Qed.

(** X11. [TicketAudits.sync] on a single page: when the page, as [reversed]
    leaves it, starts with audits older than the bookmark followed by one at
    or after it, the run emits that audit and every audit behind it in the
    page, in order and whatever their timestamps, and ends with the
    [created_at] bookmark at the last audit and the cursor token stored. *)
Theorem audits_sync_single_page (client : Client) (state : State) (b : Z)
    (older : list zobject) (a : zobject) (rest : list zobject) (fuel : nat) :
  get_bookmark parse TicketAudits state = Ok b ->
  values (reversed_gen (requested_audits client state)) = (older ++ a :: rest)%list ->
  position (reversed_gen (requested_audits client state)) = 0 ->
  next_pages (reversed_gen (requested_audits client state)) = [] ->
  Forall (fun x => exists t, strptime_with_tz parse (created_at x) = Ok t /\ t < b)
         older ->
  (exists t, strptime_with_tz parse (created_at a) = Ok t /\ b <= t) ->
  (length (a :: rest) < fuel)%nat ->
  exists tr sf,
    run parse reversed_gen TicketAudits client fuel state = Some (tr, Exhausted, sf)
    /\ map fst tr = a :: rest
    /\ (forall x s', In (x, s') tr -> stored_bookmark TicketAudits s' = created_at x)
    /\ stored_bookmark TicketAudits sf = List.last (map created_at rest) (created_at a)
    /\ stored_cursor sf = before_cursor (reversed_gen (requested_audits client state)).
Proof.
  intros Hb Hvals Hpos Hnps Hold (ta & Ha & Hle) Hfuel.
  destruct (reversed_gen (requested_audits client state))
    as [vals pos bc nps] eqn:Hit.
  cbn in Hvals, Hpos, Hnps. subst vals pos nps. cbn [before_cursor].
  assert (Hadv : advance_cursor parse reversed_gen (requested_audits client state) b state
                 = AcReturn (buffered (older ++ a :: rest)%list bc []
                                      (Z.of_nat (length older)))
                            (update_cursor_bookmark state
                               (buffered (older ++ a :: rest)%list bc [] 0))).
  { apply (advance_cursor_of_loop parse reversed_gen (S (length older))).
    rewrite Hit.
    exact (advance_cursor_loop_skips parse b bc [] a rest ta Ha Hle older [] state Hold). }
  destruct (consume_audits_buffer client bc (a :: rest) older
              (update_cursor_bookmark state (buffered (older ++ a :: rest)%list bc [] 0))
              fuel Hfuel)
    as (tr & sf & Hrun & Htr & Hsnap & Hlast & Hcur).
  exists tr, sf. split; [|split; [exact Htr|split; [|split]]].
  - unfold run. cbn [sync].
    destruct fuel as [|fuel]; [simpl in Hfuel; lia|].
    cbn [consume next audits_next] in Hrun |- *.
    rewrite Hb. cbn zeta. rewrite Hadv. exact Hrun.
  - intros x s' Hin. by apply Hsnap.
  - rewrite Hlast. cbn [map]. apply last_cons.
  - apply Hcur. discriminate.
Qed.

End AuditEmission.

Lemma audits_sync_single_page_witness :
  exists tr sf,
    run iso8601 reverse_buffer TicketAudits demo_client 4
        (state_with TicketAudits (VStr "2020-01-01T00:00:02Z"))
    = Some (tr, Exhausted, sf)
    /\ map fst tr = audit3 :: [audit4; audit5]
    /\ (forall x s', In (x, s') tr -> stored_bookmark TicketAudits s' = created_at x)
    /\ stored_bookmark TicketAudits sf
       = List.last (map created_at [audit4; audit5]) (created_at audit3)
    /\ stored_cursor sf
       = before_cursor
           (reverse_buffer
              (requested_audits demo_client
                 (state_with TicketAudits (VStr "2020-01-01T00:00:02Z")))).
Proof.
  apply (audits_sync_single_page iso8601 reverse_buffer demo_client
           (state_with TicketAudits (VStr "2020-01-01T00:00:02Z")) 1577836802
           [audit1; audit2] audit3 [audit4; audit5] 4).
  - vm_compute. reflexivity.
  - vm_compute. reflexivity.
  - vm_compute. reflexivity.
  - vm_compute. reflexivity.
  - repeat constructor; eexists; (split; [vm_compute; reflexivity | lia]).
  - eexists; split; [vm_compute; reflexivity | lia].
  - simpl. lia.
Defined.

(** ** Each stream keeps to its own entry of the state *)

Lemma same_elsewhere_refl (id0 : pykey) (s : State) : same_elsewhere id0 s s.
Proof. intros id _. reflexivity. Qed.

Lemma same_elsewhere_trans (id0 : pykey) (s1 s2 s3 : State) :
  same_elsewhere id0 s1 s2 -> same_elsewhere id0 s2 s3 -> same_elsewhere id0 s1 s3.
Proof. intros H12 H23 id Hne. rewrite (H23 id Hne). by apply H12. Qed.

Lemma write_bookmark_elsewhere (s : State) (id0 key : pykey) (v : value) :
  same_elsewhere id0 s (singer_write_bookmark s id0 key v).
Proof.
  intros id Hne. unfold singer_write_bookmark. by rewrite lookup_insert_ne.
Qed.

Lemma update_cursor_elsewhere (s : State) (g : audit_generator) :
  same_elsewhere (name TicketAudits) s (update_cursor_bookmark s g).
Proof.
  unfold update_cursor_bookmark. destruct (negb _).
  - apply write_bookmark_elsewhere.
  - apply same_elsewhere_refl.
Qed.

Section OwnEntry.

Variable parse : string -> option Z.
Variable reversed_gen : audit_generator -> audit_generator.

Lemma manual_loop_elsewhere (self : stream_class) (b : Z) (rest : list zobject)
    (s : State) :
  same_elsewhere (name self) s (resumption_state (manual_loop parse self b rest s)).
Proof.
  induction rest as [|r rest IH]; cbn [manual_loop]; [apply same_elsewhere_refl|].
  destruct (strptime_with_tz parse (updated_at r)); [|apply same_elsewhere_refl].
  destruct (_ <=? _); [apply write_bookmark_elsewhere | exact IH].
Qed.

Lemma advance_cursor_loop_elsewhere (b : Z) (fuel : nat) :
  forall (g : audit_generator) (s : State) (r : advanced),
    advance_cursor_loop parse fuel b g s = Some r ->
    same_elsewhere (name TicketAudits) s
      (match r with AcReturn _ s' => s' | AcRaise _ s' => s' end).
Proof.
  induction fuel as [|fuel IH]; intros g s r Hr; [discriminate|].
  cbn [advance_cursor_loop] in Hr.
  assert (Hpass : forall g1 s1,
             advance_cursor_pass parse b g s = Continue g1 s1
             \/ advance_cursor_pass parse b g s = Break g1 s1
             \/ advance_cursor_pass parse b g s = LoopEnd g1 s1
             \/ (exists e, advance_cursor_pass parse b g s = Throw e g1 s1) ->
             same_elsewhere (name TicketAudits) s s1).
  { intros g1 s1. unfold advance_cursor_pass.
    destruct (gen_next g) as [audit g' | g' | e g'].
    - destruct (strptime_with_tz parse (created_at audit)) as [t|e].
      + destruct (t <? b);
          intros [H | [H | [H | [e' H]]]]; try discriminate;
          injection H as _ <-; apply update_cursor_elsewhere.
      + intros [H | [H | [H | [e' H]]]]; try discriminate.
        injection H as _ _ <-. apply update_cursor_elsewhere.
    - intros [H | [H | [H | [e' H]]]]; try discriminate.
      injection H as _ <-. apply same_elsewhere_refl.
    - intros [H | [H | [H | [e' H]]]]; try discriminate.
      injection H as _ _ <-. apply same_elsewhere_refl. }
  destruct (advance_cursor_pass parse b g s) as [g1 s1 | g1 s1 | g1 s1 | e g1 s1] eqn:Hp.
  - eapply same_elsewhere_trans; [apply (Hpass g1 s1); by left | eapply IH, Hr].
  - injection Hr as <-. apply (Hpass g1 s1). right. by left.
  - injection Hr as <-. apply (Hpass g1 s1). right. right. by left.
  - injection Hr as <-. apply (Hpass g1 s1). right. right. right. by exists e.
Qed.

Lemma advance_cursor_elsewhere (g : audit_generator) (b : Z) (s : State) :
  same_elsewhere (name TicketAudits) s
    (match advance_cursor parse reversed_gen g b s with
     | AcReturn _ s' => s'
     | AcRaise _ s' => s'
     end).
Proof.
  unfold advance_cursor.
  destruct (advance_cursor_loop parse _ b (reversed_gen g) s) as [r|] eqn:Hr.
  - cbn [default]. eapply advance_cursor_loop_elsewhere, Hr.
  - apply same_elsewhere_refl.
Qed.

Lemma audits_loop_elsewhere (g : audit_generator) (s : State) :
  same_elsewhere (name TicketAudits) s (resumption_state (audits_loop g s)).
Proof.
  unfold audits_loop. destruct (gen_next g) as [audit g' | g' | e g'];
    cbn [resumption_state]; try apply same_elsewhere_refl.
  eapply same_elsewhere_trans;
    [apply update_cursor_elsewhere | apply write_bookmark_elsewhere].
Qed.

Lemma next_elsewhere (self : stream_class) (client : Client) (k : frame) (s : State) :
  same_elsewhere (name self) s
    (resumption_state (next parse reversed_gen self client k s)).
Proof.
  assert (Hts : forall self feed,
             same_elsewhere (name self) s
               (resumption_state (timestamp_next parse self feed k s))).
  { intros self0 feed. unfold timestamp_next, timestamp_loop.
    destruct k as [| rest b | g | rest]; try apply same_elsewhere_refl.
    - destruct (get_bookmark parse self0 s); [|apply same_elsewhere_refl].
      destruct (feed a); [apply same_elsewhere_refl | apply write_bookmark_elsewhere].
    - destruct rest; [apply same_elsewhere_refl | apply write_bookmark_elsewhere]. }
  assert (Hman : forall self coll,
             same_elsewhere (name self) s
               (resumption_state (manual_next parse self coll k s))).
  { intros self0 coll. unfold manual_next.
    destruct k as [| rest b | g | rest]; try apply same_elsewhere_refl.
    - destruct (get_bookmark parse self0 s); [|apply same_elsewhere_refl].
      apply manual_loop_elsewhere.
    - apply manual_loop_elsewhere. }
  destruct self; cbn [next]; try apply Hts; try apply Hman.
  - unfold audits_next.
    destruct k as [| rest b | g | rest]; try apply same_elsewhere_refl.
    + destruct (get_bookmark parse TicketAudits s) as [b|e];
        [|apply same_elsewhere_refl].
      cbn zeta.
      pose proof (advance_cursor_elsewhere (requested_audits client s) b s) as Hadv.
      destruct (advance_cursor parse reversed_gen (requested_audits client s) b s)
        as [g' s' | e s']; [|exact Hadv].
      eapply same_elsewhere_trans; [exact Hadv | apply audits_loop_elsewhere].
    + apply audits_loop_elsewhere.
  - unfold iterator_next. destruct k as [| | | [|r rest]]; apply same_elsewhere_refl.
Qed.

Lemma consume_elsewhere (self : stream_class) (client : Client) (fuel : nat) :
  forall (k : frame) (s : State) tr e sf,
    consume (next parse reversed_gen self client) fuel k s = Some (tr, e, sf) ->
    same_elsewhere (name self) s sf
    /\ forall x s', In (x, s') tr -> same_elsewhere (name self) s s'.
Proof.
  induction fuel as [|fuel IH]; intros k s tr e sf Hrun; [discriminate|].
  cbn [consume] in Hrun. pose proof (next_elsewhere self client k s) as Hnext.
  destruct (next parse reversed_gen self client k s) as [x k' s1 | s1 | e1 s1];
    cbn [resumption_state] in Hnext.
  - destruct (consume (next parse reversed_gen self client) fuel k' s1)
      as [[[tr' e'] sf']|] eqn:Hrest; [|discriminate].
    injection Hrun as <- <- <-.
    destruct (IH _ _ _ _ _ Hrest) as [Hsf Htr].
    split; [eapply same_elsewhere_trans; eassumption|].
    intros y s' [[= <- <-] | Hin]; [exact Hnext|].
    eapply same_elsewhere_trans; [exact Hnext | by eapply Htr].
  - injection Hrun as <- <- <-. split; [exact Hnext | intros x s' []].
  - injection Hrun as <- <- <-. split; [exact Hnext | intros x s' []].
Qed.

(** X12. Consuming [sync] of a class, to the end or to an error, leaves the
    entry of every other stream name in the state exactly as it was, at each
    [yield] and afterwards. *)
Theorem sync_keeps_to_own_entry (self : stream_class) (client : Client)
    (fuel : nat) (state : State) (tr : list (zobject * State)) (e : ending)
    (sf : State) :
  run parse reversed_gen self client fuel state = Some (tr, e, sf) ->
  forall id, id ≠ name self ->
    sf !! id = state !! id
    /\ forall x s', In (x, s') tr -> s' !! id = state !! id.
Proof.
  intros Hrun id Hne. unfold run in Hrun.
  assert (Hsync : sync self client state = (fst (sync self client state), state))
    by (by destruct self).
  rewrite Hsync in Hrun.
  destruct (consume_elsewhere self client fuel _ _ _ _ _ Hrun) as [Hsf Htr].
  split; [by apply Hsf|]. intros x s' Hin. by apply (Htr x s' Hin).
Qed.

End OwnEntry.

Lemma sync_keeps_to_own_entry_witness :
  final_state Organizations
    (update_bookmark Groups (state_with Organizations (VStr "2020-01-01T00:00:00Z"))
                     (VStr "2019-01-01T00:00:00Z"))
    [org1; org2] !! name Groups
  = update_bookmark Groups (state_with Organizations (VStr "2020-01-01T00:00:00Z"))
                    (VStr "2019-01-01T00:00:00Z") !! name Groups
  /\ forall x s',
       In (x, s')
          (emitted Organizations
             (update_bookmark Groups
                (state_with Organizations (VStr "2020-01-01T00:00:00Z"))
                (VStr "2019-01-01T00:00:00Z"))
             [org1; org2]) ->
       s' !! name Groups
       = update_bookmark Groups (state_with Organizations (VStr "2020-01-01T00:00:00Z"))
                         (VStr "2019-01-01T00:00:00Z") !! name Groups.
Proof.
  apply (sync_keeps_to_own_entry iso8601 reverse_buffer Organizations demo_client 3
           (update_bookmark Groups (state_with Organizations (VStr "2020-01-01T00:00:00Z"))
                            (VStr "2019-01-01T00:00:00Z"))
           _ Exhausted _).
  - vm_compute. reflexivity.
  - discriminate.
Defined.

(** ** The whole metadata list *)

Lemma dict_set_fresh {K V : Type} `{EqDecision K} (k : K) (v : V) (d : list (K * V)) :
  dict_get k d = None -> dict_set k v d = (d ++ [(k, v)])%list.
Proof.
  induction d as [|[k' v'] d IH]; cbn; [reflexivity|].
  destruct (decide (k = k')); [discriminate|].
  intros Hd. by rewrite IH.
Qed.

Lemma dict_get_snoc_other {K V : Type} `{EqDecision K} (k k' : K) (v : V)
    (d : list (K * V)) :
  k ≠ k' -> dict_get k (d ++ [(k', v)])%list = dict_get k d.
Proof.
  intros Hne. induction d as [|[k0 v0] d IH]; cbn.
  - by rewrite decide_False.
  - destruct (decide (k = k0)); [reflexivity | exact IH].
Qed.

Lemma write_inclusions_fresh (fields : list string) :
  NoDup fields ->
  forall (md : compiled_metadata),
    (forall f, In f fields -> dict_get ["properties"; f] md = None) ->
    write_inclusions fields md
    = Ok (md ++ map (fun f => (["properties"; f], [("inclusion", inclusion_written f)]))
                    fields)%list.
Proof.
  induction 1 as [|f fields Hnotin Hnodup IH]; intros md Hfresh.
  - cbn. by rewrite app_nil_r.
  - cbn [write_inclusions metadata_write map].
    rewrite (Hfresh f) by (by left). cbn [default dict_set].
    rewrite dict_set_fresh by (apply Hfresh; by left).
    rewrite IH.
    + rewrite <- app_assoc. reflexivity.
    + intros f' Hin. rewrite dict_get_snoc_other.
      * apply Hfresh. by right.
      * intros [= ->]. apply Hnotin. by apply list_elem_of_In.
Qed.

(** X13. On a schema whose field names are distinct, as the keys of a JSON
    object are, [load_metadata] never fails and returns exactly this list:
    first the table-level entry with [table-key-properties] and
    [forced-replication-method] from the class, then one entry per field in
    schema order, each with the single annotation [inclusion], [automatic]
    for a field in [KEY_PROPERTIES] and [available] for any other. *)
Theorem load_metadata_exact (self : stream_class) (properties : list string) :
  NoDup properties ->
  exists m,
    replication_method self = Some m
    /\ load_metadata self properties
       = Ok (([], [("table-key-properties", MList (key_properties self));
                   ("forced-replication-method", MStr m)])
             :: map (fun f => (["properties"; f],
                               [("inclusion",
                                 MStr (if bool_decide (f ∈ KEY_PROPERTIES)
                                       then "automatic" else "available"))]))
                    properties).
Proof.
  intros Hnodup.
  assert (Hm : exists m, replication_method self = Some m)
    by (destruct self; eexists; reflexivity).
  destruct Hm as [m Hm]. exists m. split; [exact Hm|].
  unfold load_metadata. rewrite Hm.
  cbn [fmap option_fmap option_map metadata_write metadata_new dict_get dict_set
       default decide].
  match goal with
  | |- context [write_inclusions properties ?md2] =>
      rewrite (write_inclusions_fresh properties Hnodup md2)
  end.
  - reflexivity.
  - intros f _. reflexivity.
Qed.

Lemma load_metadata_exact_witness :
  exists m,
    replication_method Tickets = Some m
    /\ load_metadata Tickets ["id"; "subject"]
       = Ok (([], [("table-key-properties", MList (key_properties Tickets));
                   ("forced-replication-method", MStr m)])
             :: map (fun f => (["properties"; f],
                               [("inclusion",
                                 MStr (if bool_decide (f ∈ KEY_PROPERTIES)
                                       then "automatic" else "available"))]))
                    ["id"; "subject"]).
Proof.
  apply (load_metadata_exact Tickets ["id"; "subject"]).
  apply (bool_decide_unpack (NoDup ["id"; "subject"])). vm_compute. exact I.
Defined.

(** ** Running a manual-filter stream again *)

Lemma final_state_snoc (self : stream_class) (l : list zobject) (x : zobject) :
  forall (s : State),
    final_state self s (l ++ [x])%list = update_bookmark self s (updated_at x).
Proof.
  unfold final_state. induction l as [|y l IH]; intros s; [reflexivity|].
  cbn [app foldl]. rewrite IH. unfold update_bookmark.
  apply write_bookmark_overwrite.
Qed.

Lemma filter_last_split {A : Type} (P : A -> bool) (l : list A) :
  forall (init : list A) (x : A),
    List.filter P l = (init ++ [x])%list ->
    exists pre post,
      l = (pre ++ x :: post)%list
      /\ List.filter P pre = init
      /\ P x = true
      /\ List.filter P post = [].
Proof.
  induction l as [|y l IH] using rev_ind; intros init x Hf.
  - by destruct init.
  - rewrite List.filter_app in Hf. cbn [List.filter] in Hf.
    destruct (P y) eqn:Hy.
    + apply app_inj_tail in Hf as [Hinit <-].
      exists l, []. split; [reflexivity|]. split; [exact Hinit|].
      split; [exact Hy | reflexivity].
    + rewrite app_nil_r in Hf.
      destruct (IH init x Hf) as (pre & post & -> & Hpre & Hx & Hpost).
      exists pre, (post ++ [y])%list. split; [by rewrite <- app_assoc|].
      split; [exact Hpre|]. split; [exact Hx|].
      rewrite List.filter_app, Hpost. cbn. by rewrite Hy.
Qed.

Lemma filter_stronger_nil {A : Type} (P Q : A -> bool) (l : list A) :
  (forall x, Q x = true -> P x = true) ->
  List.filter P l = [] -> List.filter Q l = [].
Proof.
  intros HQP. induction l as [|y l IH]; [reflexivity|]. cbn.
  destruct (P y) eqn:Hy; [discriminate|]. intros Hl.
  destruct (Q y) eqn:Hq; [|by apply IH].
  apply HQP in Hq. congruence.
Qed.

Section Rerun.

Variable parse : string -> option Z.
Variable reversed_gen : audit_generator -> audit_generator.

(** X14. Running a manual-filter [sync] a second time on the same collection,
    from the state the first run left: the second run emits the records at or
    after the timestamp of the last record the first run emitted, that record
    among them, and leaves the state exactly as the first run left it. *)
Theorem manual_sync_rerun (self : stream_class) (client : Client) (state : State)
    (bookmark : Z) (fuel : nat) (init : list zobject) (r_last : zobject) (t_last : Z) :
  In self manual_filter ->
  get_bookmark parse self state = Ok bookmark ->
  Forall (timestamped parse) (collection_of client self) ->
  List.filter (fresh parse bookmark) (collection_of client self)
  = (init ++ [r_last])%list ->
  strptime_with_tz parse (updated_at r_last) = Ok t_last ->
  (length (collection_of client self) < fuel)%nat ->
  exists tr1 sf1 tr2,
    run parse reversed_gen self client fuel state = Some (tr1, Exhausted, sf1)
    /\ map fst tr1 = (init ++ [r_last])%list
    /\ run parse reversed_gen self client fuel sf1 = Some (tr2, Exhausted, sf1)
    /\ map fst tr2 = List.filter (fresh parse t_last) (collection_of client self)
    /\ In r_last (map fst tr2).
Proof.
  intros Hself Hb Hcoll Hfilter Hlast Hfuel.
  set (coll := collection_of client self) in *.
  set (sf1 := final_state self state (init ++ [r_last])%list).
  assert (Hb1 : get_bookmark parse self sf1 = Ok t_last).
  { unfold sf1, get_bookmark. rewrite final_state_snoc.
    unfold update_bookmark. rewrite get_write_same. exact Hlast. }
  destruct (filter_last_split _ _ _ _ Hfilter)
    as (pre & post & Hsplit & Hpre & Hfresh & Hpost).
  assert (Hle : bookmark <= t_last).
  { rewrite (fresh_spec parse bookmark r_last t_last Hlast) in Hfresh.
    by apply Z.leb_le. }
  assert (Hfilter2 : List.filter (fresh parse t_last) coll
                     = (List.filter (fresh parse t_last) pre ++ [r_last])%list).
  { rewrite Hsplit, List.filter_app. cbn [List.filter].
    rewrite (fresh_spec parse t_last r_last t_last Hlast), Z.leb_refl.
    rewrite (filter_stronger_nil (fresh parse bookmark) (fresh parse t_last) post);
      [reflexivity | | exact Hpost].
    intros x. unfold fresh.
    destruct (strptime_with_tz parse (updated_at x)); [|done].
    rewrite !Z.leb_le. lia. }
  exists (emitted self state (init ++ [r_last])%list), sf1,
         (emitted self sf1 (List.filter (fresh parse t_last) coll)).
  split; [|split; [apply emitted_records|split; [|split]]].
  - rewrite (run_manual parse reversed_gen) by exact Hself. fold coll.
    rewrite (consume_manual_created parse _ _ bookmark) by exact Hb.
    rewrite (consume_manual parse self coll bookmark coll Hcoll state fuel Hfuel).
    by rewrite Hfilter.
  - rewrite (run_manual parse reversed_gen) by exact Hself. fold coll.
    rewrite (consume_manual_created parse _ _ t_last) by exact Hb1.
    rewrite (consume_manual parse self coll t_last coll Hcoll sf1 fuel Hfuel).
    do 2 f_equal. rewrite Hfilter2, final_state_snoc.
    unfold sf1. rewrite final_state_snoc. unfold update_bookmark.
    apply write_bookmark_overwrite.
  - apply emitted_records.
  - rewrite emitted_records, Hfilter2. apply List.in_or_app. right. by left.
Qed.

End Rerun.

Lemma manual_sync_rerun_witness :
  exists tr1 sf1 tr2,
    run iso8601 reverse_buffer Groups demo_client 4
        (state_with Groups (VStr "2020-01-01T12:00:00Z"))
    = Some (tr1, Exhausted, sf1)
    /\ map fst tr1 = ([org2] ++ [org2])%list
    /\ run iso8601 reverse_buffer Groups demo_client 4 sf1 = Some (tr2, Exhausted, sf1)
    /\ map fst tr2 = List.filter (fresh iso8601 1577923200) (collection_of demo_client Groups)
    /\ In org2 (map fst tr2).
Proof.
  apply (manual_sync_rerun iso8601 reverse_buffer Groups demo_client
           (state_with Groups (VStr "2020-01-01T12:00:00Z")) 1577880000 4
           [org2] org2 1577923200).
  - simpl. tauto.
  - vm_compute. reflexivity.
  - repeat constructor; eexists; vm_compute; reflexivity.
  - vm_compute. reflexivity.
  - vm_compute. reflexivity.
  - simpl. lia.
Defined.

(** ** The further properties on the example data *)

Lemma sync_fails_on_bad_bookmark_witness :
  run iso8601 reverse_buffer Users demo_client 1 (state_with Users (VStr "yesterday"))
  = Some ([], Failed ParserValueError, state_with Users (VStr "yesterday")).
Proof.
  apply (sync_fails_on_bad_bookmark iso8601 reverse_buffer Users demo_client
           (state_with Users (VStr "yesterday")) ParserValueError 0).
  - reflexivity.
  - vm_compute. reflexivity.
Defined.

Lemma timestamp_sync_unfiltered_witness :
  exists tr sf,
    run iso8601 reverse_buffer TicketMetrics faulty_client 3
        (state_with TicketMetrics (VStr "2020-01-01T00:00:00Z"))
    = Some (tr, Exhausted, sf)
    /\ map fst tr = ([org1] ++ [undated])%list
    /\ get_bookmark iso8601 TicketMetrics sf
       = strptime_with_tz iso8601 (updated_at undated).
Proof.
  apply (timestamp_sync_unfiltered iso8601 reverse_buffer TicketMetrics faulty_client
           (state_with TicketMetrics (VStr "2020-01-01T00:00:00Z")) 1577836800 3
           [org1] undated).
  - simpl. tauto.
  - vm_compute. reflexivity.
  - reflexivity.
  - simpl. lia.
Defined.

Lemma timestamp_sync_interrupted_witness :
  exists sf,
    consume_upto (next iso8601 reverse_buffer Organizations demo_client) 1
      (fst (sync Organizations demo_client
              (state_with Organizations (VStr "2020-01-01T00:00:00Z"))))
      (snd (sync Organizations demo_client
              (state_with Organizations (VStr "2020-01-01T00:00:00Z"))))
    = (take 1 (incremental_feed demo_client Organizations 1577836800), sf)
    /\ stored_bookmark Organizations sf
       = List.last
           (map updated_at (take 1 (incremental_feed demo_client Organizations 1577836800)))
           (stored_bookmark Organizations
              (state_with Organizations (VStr "2020-01-01T00:00:00Z"))).
Proof.
  apply (timestamp_sync_interrupted iso8601 reverse_buffer Organizations demo_client
           (state_with Organizations (VStr "2020-01-01T00:00:00Z")) 1577836800 1).
  - simpl. tauto.
  - vm_compute. reflexivity.
Defined.

Lemma manual_sync_any_collection_witness :
  run iso8601 reverse_buffer Macros faulty_client 4
      (state_with Macros (VStr "2020-01-01T00:00:00Z"))
  = Some (emitted Macros (state_with Macros (VStr "2020-01-01T00:00:00Z"))
            (List.filter (fresh iso8601 1577836800)
                         (readable iso8601 (collection_of faulty_client Macros))),
          walk_ending iso8601 (collection_of faulty_client Macros),
          final_state Macros (state_with Macros (VStr "2020-01-01T00:00:00Z"))
            (List.filter (fresh iso8601 1577836800)
                         (readable iso8601 (collection_of faulty_client Macros)))).
Proof.
  apply (manual_sync_any_collection iso8601 reverse_buffer Macros faulty_client
           (state_with Macros (VStr "2020-01-01T00:00:00Z")) 1577836800 4).
  - simpl. tauto.
  - vm_compute. reflexivity.
  - simpl. lia.
Defined.

Example manual_sync_stops_at_undated :
  run iso8601 reverse_buffer Macros faulty_client 4
      (state_with Macros (VStr "2020-01-01T00:00:00Z"))
  = Some ([(org2, state_with Macros (VStr "2020-01-02T00:00:00Z"))],
          Failed ParserTypeError,
          state_with Macros (VStr "2020-01-02T00:00:00Z")).
Proof. vm_compute. reflexivity. Qed.
